(** * Values of terraform-plugin-framework: list values, their wire
    conversion, semantic equality and the nested-dynamic validation.

    A shallow embedding of
      - types/basetypes/list_value.go            (module [basetypes]),
      - internal/fwschemadata/value_semantic_equality_dynamic.go
                                                 (module [fwschemadata]),
      - resource/schema list attribute           (module [schema]),
    together with a small model of Go slices (module [slices]) used to
    reason about the copy made by [ListValue.Elements]. *)

From Stdlib Require Import List String Ascii Bool Arith NArith Lia Decimal DecimalString.
From Stdlib Require Import Permutation.
Import ListNotations.

Set Implicit Arguments.
Set Warnings "-register-all".

Local Open Scope string_scope.
Local Open Scope list_scope.

(** Go's string concatenation. *)
Infix "+++" := String.append (right associativity, at level 60).

(** ** Go runtime outcomes

    A Go call either returns or panics.  The panics that matter here are the
    nil-interface method call, the out-of-range index and the explicit
    [panic(msg)]. *)

Inductive panic : Type :=
| NilDereference
| IndexOutOfRange
| PanicMsg (msg : string).

Inductive outcome (A : Type) : Type :=
| Ret (a : A)
| Panic (p : panic).

Arguments Ret {A} a.
Arguments Panic {A} p.

Definition bind {A B : Type} (m : outcome A) (k : A -> outcome B) : outcome B :=
  match m with
  | Ret a => k a
  | Panic p => Panic p
  end.

Notation "x <- m ;; k" := (bind m (fun x => k))
  (at level 61, m at next level, right associativity).
Notation "' pat <- m ;; k" := (bind m (fun x => match x with pat => k end))
  (at level 61, pat pattern, m at next level, right associativity).

(** The newline character of Go's ["\n"]. *)
Definition nl : string := String (ascii_of_nat 10) EmptyString.

(** [fmt.Sprintf("%d", idx)] for a slice index. *)
Definition itoa (n : nat) : string := NilEmpty.string_of_uint (Nat.to_uint n).

(** [strings.Join(parts, sep)]. *)
Fixpoint Join (parts : list string) (sep : string) : string :=
  match parts with
  | [] => ""
  | [p] => p
  | p :: rest => p +++ sep +++ Join rest sep
  end.

(** ** package diag *)
Module diag.

Inductive Severity : Type := SeverityError | SeverityWarning.

Definition Severity_String (s : Severity) : string :=
  match s with
  | SeverityError => "Error"
  | SeverityWarning => "Warning"
  end.

Record Diagnostic : Type := mkDiagnostic {
  severity : Severity;
  Summary : string;
  Detail : string
}.

Definition Diagnostics : Type := list Diagnostic.

Definition NewErrorDiagnostic (summary detail : string) : Diagnostic :=
  mkDiagnostic SeverityError summary detail.

(** Modelled from the spec: the diag package is not part of the sources at
    hand.  Accumulation is append-only (section 5): [AddError] appends one
    error-severity diagnostic, [Append] appends the given diagnostics in
    order. *)
Definition AddError (diags : Diagnostics) (summary detail : string) : Diagnostics :=
  diags ++ [NewErrorDiagnostic summary detail].

Definition Append (diags more : Diagnostics) : Diagnostics := diags ++ more.

Definition isError (d : Diagnostic) : bool :=
  match severity d with SeverityError => true | SeverityWarning => false end.

Definition HasError (diags : Diagnostics) : bool := existsb isError diags.

End diag.

(** ** package attr: type descriptors and value states *)
Module attr.

(** [attr.ValueState] is a [uint8]; its zero value is the null state. *)
Definition ValueState : Type := N.
Definition ValueStateNull : ValueState := 0%N.
Definition ValueStateUnknown : ValueState := 1%N.
Definition ValueStateKnown : ValueState := 2%N.

Definition UnknownValueString : string := "<unknown>".
Definition NullValueString : string := "<null>".

Inductive Primitive : Type := PBool | PString | PNumber | PInt64 | PFloat64.

(** The implementations of [attr.Type], by the interface each one lets a
    type switch see: [TDynamic] is an [attr.TypeWithDynamicValue], lists,
    sets and maps are [attr.TypeWithElementType] (the [ElemType] field is an
    interface and may be nil), tuples are [attr.TypeWithElementTypes],
    objects are [attr.TypeWithAttributeTypes], primitives are none of
    these. *)
Inductive Type_ : Type :=
| TPrimitive (p : Primitive)
| TDynamic
| TList (ElemType : option Type_)
| TSet (ElemType : option Type_)
| TMap (ElemType : option Type_)
| TTuple (ElemTypes : list Type_)
| TObject (AttrTypes : list (string * Type_)).

Definition Primitive_eqb (p q : Primitive) : bool :=
  match p, q with
  | PBool, PBool | PString, PString | PNumber, PNumber
  | PInt64, PInt64 | PFloat64, PFloat64 => true
  | _, _ => false
  end.

(** Modelled from the spec: the [Equal] methods of the type descriptors are
    not part of the sources at hand.  Two descriptors are equal iff they are
    of the same kind and, recursively, have equal element or attribute
    types (section 3); there is no coercion between kinds. *)
Fixpoint Type_eqb (t u : Type_) {struct t} : bool :=
  match t, u with
  | TPrimitive p, TPrimitive q => Primitive_eqb p q
  | TDynamic, TDynamic => true
  | TList a, TList b
  | TSet a, TSet b
  | TMap a, TMap b =>
      match a, b with
      | Some a', Some b' => Type_eqb a' b'
      | None, None => true
      | _, _ => false
      end
  | TTuple ts, TTuple us =>
      (fix all2 (xs ys : list Type_) {struct xs} : bool :=
         match xs, ys with
         | [], [] => true
         | x :: xs', y :: ys' => Type_eqb x y && all2 xs' ys'
         | _, _ => false
         end) ts us
  | TObject ts, TObject us =>
      (fix all2 (xs ys : list (string * Type_)) {struct xs} : bool :=
         match xs, ys with
         | [], [] => true
         | (k, x) :: xs', (k', y) :: ys' =>
             String.eqb k k' && Type_eqb x y && all2 xs' ys'
         | _, _ => false
         end) ts us
  | _, _ => false
  end.

(** [t.Equal(o)] with a receiver [t] and an argument that may be the nil
    interface, which no type assertion accepts. *)
Definition Type_Equal (t : Type_) (o : option Type_) : bool :=
  match o with
  | Some u => Type_eqb t u
  | None => false
  end.

(** The type assertion [typ.(attr.TypeWithDynamicValue)]. *)
Definition isTypeWithDynamicValue (t : option Type_) : bool :=
  match t with
  | Some TDynamic => true
  | _ => false
  end.

(** Structural induction through the nested element and attribute
    types. *)
Section Type_induction.
Variable P : Type_ -> Prop.
Let Popt (o : option Type_) : Prop :=
  match o with Some t => P t | None => True end.
Hypothesis HPrimitive : forall p, P (TPrimitive p).
Hypothesis HDynamic : P TDynamic.
Hypothesis HList : forall e, Popt e -> P (TList e).
Hypothesis HSet : forall e, Popt e -> P (TSet e).
Hypothesis HMap : forall e, Popt e -> P (TMap e).
Hypothesis HTuple : forall ts, Forall P ts -> P (TTuple ts).
Hypothesis HObject : forall ats, Forall (fun kt => P (snd kt)) ats -> P (TObject ats).

Fixpoint Type_nested_ind (t : Type_) : P t :=
  match t with
  | TPrimitive p => HPrimitive p
  | TDynamic => HDynamic
  | TList e =>
      HList e (match e return Popt e with
               | Some u => Type_nested_ind u | None => I end)
  | TSet e =>
      HSet e (match e return Popt e with
              | Some u => Type_nested_ind u | None => I end)
  | TMap e =>
      HMap e (match e return Popt e with
              | Some u => Type_nested_ind u | None => I end)
  | TTuple ts =>
      HTuple ((fix go (l : list Type_) : Forall P l :=
                 match l with
                 | [] => Forall_nil P
                 | x :: l' => Forall_cons x (Type_nested_ind x) (go l')
                 end) ts)
  | TObject ats =>
      HObject ((fix go (l : list (string * Type_))
                 : Forall (fun kt => P (snd kt)) l :=
                  match l with
                  | [] => Forall_nil _
                  | kt :: l' =>
                      Forall_cons kt (Type_nested_ind (snd kt)) (go l')
                  end) ats)
  end.
End Type_induction.

End attr.

(** ** package tftypes (terraform-plugin-go): the wire-level values *)
Module tftypes.

Inductive Type_ : Type :=
| Bool
| Number
| String_
| DynamicPseudoType
| List_ (ElementType : Type_)
| Set_ (ElementType : Type_)
| Map_ (ElementType : Type_)
| Tuple (ElementTypes : list Type_)
| Object (AttributeTypes : list (string * Type_)).

(** [t.Is(tftypes.DynamicPseudoType)]. *)
Definition Is_DynamicPseudoType (t : Type_) : bool :=
  match t with
  | DynamicPseudoType => true
  | _ => false
  end.

(** A [tftypes.Value] is a type together with its payload: the null
    marker ([nil]), the unknown marker ([tftypes.UnknownValue]) or known
    data. *)
Inductive Value : Type :=
| mkValue (typ : Type_) (value : Payload)
with Payload : Type :=
| Nil
| UnknownValue
| Str (s : string)
| Num (n : N)
| Boolean (b : bool)
| Values (vs : list Value).

Definition NewValue (t : Type_) (val : Payload) : Value := mkValue t val.

Definition Type_of (v : Value) : Type_ :=
  match v with mkValue t _ => t end.

Definition IsNull (v : Value) : bool :=
  match v with mkValue _ Nil => true | _ => false end.

Definition IsKnown (v : Value) : bool :=
  match v with mkValue _ UnknownValue => false | _ => true end.

End tftypes.

(** Go's [error], by its message. *)
Definition error : Type := string.

(** ** package reflect: the options of the binding collaborator *)
Module reflect.

Record Options : Type := mkOptions {
  UnhandledNullAsEmpty : bool;
  UnhandledUnknownAsEmpty : bool
}.

End reflect.

(** ** package basetypes: list values *)
Module basetypes.

(** The [ListValue] struct, over the type of its elements.  The elements
    of a list value are values: [NewListValue] calls [Type] on every
    element it is given and panics on a nil one, so it stores none. *)
Record ListValue (V : Type) : Type := mkListValue {
  elements : list V;
  elementType : option attr.Type_;
  state : attr.ValueState
}.

Arguments mkListValue {V} elements elementType state.

Section Values.

(** The other implementations of [attr.Value]: the values of the
    remaining base types and the provider-defined ones. *)
Variable Other : Type.

(** An [attr.Value] is a [ListValue] or one of the others. *)
Inductive Value : Type :=
| VList (l : ListValue Value)
| VOther (o : Other).

(** What list values call on their collaborators: the methods of the
    other values (the conversion to the wire form of a provider-defined
    value is an interface call that may panic), the methods of the type
    descriptors that are not part of the sources at hand, and the validation
    of tftypes. *)
Record Collaborators : Type := mkCollaborators {
  other_Type : Other -> attr.Type_;
  other_Equal : Other -> Value -> bool;
  other_ToTerraformValue : Other -> outcome (tftypes.Value * option error);
  other_String : Other -> string;
  other_IsNull : Other -> bool;
  other_IsUnknown : Other -> bool;
  TerraformType : attr.Type_ -> tftypes.Type_;
  Type_String : attr.Type_ -> string;
  ValueState_String : attr.ValueState -> string;
  ValidateValue : tftypes.Type_ -> list tftypes.Value -> option error
}.

Variable C : Collaborators.

Definition ListVal : Type := ListValue Value.

(** The zero value [ListValue{}]. *)
Definition zero : ListVal := mkListValue [] None 0%N.

Definition NewListNull (elementType : option attr.Type_) : ListVal :=
  mkListValue [] elementType attr.ValueStateNull.

Definition NewListUnknown (elementType : option attr.Type_) : ListVal :=
  mkListValue [] elementType attr.ValueStateUnknown.

Definition ElementType (l : ListVal) : option attr.Type_ := elementType l.

Definition ListValue_Type (l : ListVal) : attr.Type_ := attr.TList (ElementType l).

Definition Value_Type (v : Value) : attr.Type_ :=
  match v with
  | VList l => ListValue_Type l
  | VOther o => other_Type C o
  end.

Definition IsNull (l : ListVal) : bool := N.eqb (state l) attr.ValueStateNull.

Definition IsUnknown (l : ListVal) : bool := N.eqb (state l) attr.ValueStateUnknown.

(** *** NewListValue *)

Definition invalidElementDetail
    (elementType : attr.Type_) (idx : nat) (elemType : attr.Type_) : string :=
  "While creating a List value, an invalid element was detected. "
  +++ "A List must use the single, given element type. "
  +++ "This is always an issue with the provider and should be reported to the provider developers."
  +++ nl +++ nl
  +++ ("List Element Type: " +++ Type_String C elementType +++ nl)
  +++ ("List Index (" +++ itoa idx +++ ") Element Type: "
       +++ Type_String C elemType).

(** The loop [for idx, element := range elements], from index [idx]
    on.  The slice a caller hands over holds [attr.Value] interfaces, any of
    which may be nil: [element.Type(ctx)] on a nil element panics, and so
    does [elementType.Equal] on a nil element type. *)
Fixpoint checkElements (elementType : option attr.Type_) (idx : nat)
    (elements : list (option Value)) (diags : diag.Diagnostics)
    : outcome diag.Diagnostics :=
  match elements with
  | [] => Ret diags
  | element :: rest =>
      match element, elementType with
      | None, _ => Panic NilDereference
      | Some _, None => Panic NilDereference
      | Some element, Some t =>
          let diags' :=
            if negb (attr.Type_Equal t (Some (Value_Type element))) then
              diag.AddError diags "Invalid List Element Type"
                (invalidElementDetail t idx (Value_Type element))
            else diags in
          checkElements elementType (S idx) rest diags'
      end
  end.

(** The values a slice of interfaces holds. *)
Fixpoint present (V : Type) (elements : list (option V)) : list V :=
  match elements with
  | [] => []
  | Some v :: rest => v :: present rest
  | None :: rest => present rest
  end.

Definition NewListValue (elementType : option attr.Type_)
    (elements : list (option Value))
    : outcome (ListVal * diag.Diagnostics) :=
  diags <- checkElements elementType 0 elements [] ;;
  if diag.HasError diags then
    Ret (NewListUnknown elementType, diags)
  else
    Ret (mkListValue (present elements) elementType attr.ValueStateKnown, []).

(** *** NewListValueMust *)

Definition diagString (d : diag.Diagnostic) : string :=
  diag.Severity_String (diag.severity d) +++ " | " +++ diag.Summary d
  +++ " | " +++ diag.Detail d.

Definition NewListValueMust (elementType : option attr.Type_)
    (elements : list (option Value)) : outcome ListVal :=
  '(list, diags) <- NewListValue elementType elements ;;
  if diag.HasError diags then
    let diagsStrings := map diagString diags in
    Panic (PanicMsg ("NewListValueMust received error(s): "
                     +++ Join diagsStrings nl))
  else
    Ret list.

(** *** Elements *)

(** [Elements] on the immutable view of a list value: the elements read
    out in order.  The allocation behind it is in module [slices]. *)
Definition Elements (l : ListVal) : list Value := [] ++ elements l.

(** *** ToTerraformValue *)

Definition isNil {A : Type} (o : option A) : bool :=
  match o with None => true | Some _ => false end.

(** The first loop over the elements: the type of the first element
    that converts without error to a value whose type is not the
    dynamic pseudo type, or [elemTfType] when the loop runs out. *)
Definition firstConcreteType
    (toTf : Value -> outcome (tftypes.Value * option error))
    : list Value -> tftypes.Type_ -> outcome tftypes.Type_ :=
  fix loop (elems : list Value) (elemTfType : tftypes.Type_) :=
    match elems with
    | [] => Ret elemTfType
    | elem :: rest =>
        '(val, err) <- toTf elem ;;
        if isNil err
           && negb (tftypes.Is_DynamicPseudoType (tftypes.Type_of val))
        then Ret (tftypes.Type_of val)
        else loop rest elemTfType
    end.

(** A null or unknown value of the dynamic pseudo type becomes a null or
    unknown value of [elemTfType]. *)
Definition retype (elemTfType : tftypes.Type_) (val : tftypes.Value)
    : tftypes.Value :=
  if tftypes.Is_DynamicPseudoType (tftypes.Type_of val) then
    if tftypes.IsNull val then tftypes.NewValue elemTfType tftypes.Nil
    else if negb (tftypes.IsKnown val) then
      tftypes.NewValue elemTfType tftypes.UnknownValue
    else val
  else val.

(** The second loop: either the early return on the first conversion
    error, or the converted elements appended to [vals]. *)
Definition convertElements
    (toTf : Value -> outcome (tftypes.Value * option error))
    (listType elemTfType : tftypes.Type_)
    : list Value -> list tftypes.Value
      -> outcome ((tftypes.Value * option error) + list tftypes.Value) :=
  fix loop (elems : list Value) (vals : list tftypes.Value) :=
    match elems with
    | [] => Ret (inr vals)
    | elem :: rest =>
        '(val, err) <- toTf elem ;;
        match err with
        | Some e =>
            Ret (inl (tftypes.NewValue listType tftypes.UnknownValue, Some e))
        | None => loop rest (vals ++ [retype elemTfType val])
        end
    end.

Definition unhandledState (st : attr.ValueState) : panic :=
  PanicMsg ("unhandled List state in ToTerraformValue: "
            +++ ValueState_String C st).

Definition ListValue_ToTerraformValue_with
    (toTf : Value -> outcome (tftypes.Value * option error))
    (l : ListVal) : outcome (tftypes.Value * option error) :=
  match ElementType l with
  | None => Panic NilDereference
  | Some t =>
      let listType := tftypes.List_ (TerraformType C t) in
      if N.eqb (state l) attr.ValueStateKnown then
        let elemTfType0 := TerraformType C t in
        elemTfType <-
          (if attr.isTypeWithDynamicValue (ElementType l)
           then firstConcreteType toTf (elements l) elemTfType0
           else Ret elemTfType0) ;;
        r <- convertElements toTf listType elemTfType (elements l) [] ;;
        match r with
        | inl early => Ret early
        | inr vals =>
            match ValidateValue C listType vals with
            | Some err =>
                Ret (tftypes.NewValue listType tftypes.UnknownValue, Some err)
            | None =>
                Ret (tftypes.NewValue listType (tftypes.Values vals), None)
            end
        end
      else if N.eqb (state l) attr.ValueStateNull then
        Ret (tftypes.NewValue listType tftypes.Nil, None)
      else if N.eqb (state l) attr.ValueStateUnknown then
        Ret (tftypes.NewValue listType tftypes.UnknownValue, None)
      else Panic (unhandledState (state l))
  end.

Fixpoint Value_ToTerraformValue (v : Value)
    : outcome (tftypes.Value * option error) :=
  match v with
  | VList l => ListValue_ToTerraformValue_with Value_ToTerraformValue l
  | VOther o => other_ToTerraformValue C o
  end.

Definition ListValue_ToTerraformValue (l : ListVal) : outcome (tftypes.Value * option error) :=
  ListValue_ToTerraformValue_with Value_ToTerraformValue l.

(** *** Equal *)

(** The loop [for idx, lElem := range l.elements] of [Equal]. *)
Definition elementsEqual (elemEqual : Value -> Value -> outcome bool)
    : list Value -> list Value -> outcome bool :=
  fix loop (lElems otherElems : list Value) :=
    match lElems with
    | [] => Ret true
    | lElem :: lRest =>
        match otherElems with
        | [] => Panic IndexOutOfRange
        | otherElem :: otherRest =>
            b <- elemEqual lElem otherElem ;;
            if negb b then Ret false else loop lRest otherRest
        end
    end.

Definition ListValue_Equal_with (elemEqual : Value -> Value -> outcome bool)
    (l : ListVal) (o : Value) : outcome bool :=
  match o with
  | VOther _ => Ret false
  | VList other =>
      match elementType l with
      | None => Panic NilDereference
      | Some t =>
          if negb (attr.Type_Equal t (elementType other)) then Ret false
          else if negb (N.eqb (state l) (state other)) then Ret false
          else if negb (N.eqb (state l) attr.ValueStateKnown) then Ret true
          else if negb (Nat.eqb (List.length (elements l)) (List.length (elements other)))
          then Ret false
          else elementsEqual elemEqual (elements l) (elements other)
      end
  end.

Fixpoint Value_Equal (v o : Value) {struct v} : outcome bool :=
  match v with
  | VList l => ListValue_Equal_with Value_Equal l o
  | VOther x => Ret (other_Equal C x o)
  end.

Definition ListValue_Equal (l : ListVal) (o : Value) : outcome bool :=
  ListValue_Equal_with Value_Equal l o.

(** *** String *)

Definition writeElements (elemString : Value -> string)
    : nat -> list Value -> string -> string :=
  fix loop (i : nat) (es : list Value) (res : string) :=
    match es with
    | [] => res
    | e :: rest =>
        let res := if negb (Nat.eqb i 0) then res +++ "," else res in
        loop (S i) rest (res +++ elemString e)
    end.

Definition ListValue_String_with (elemString : Value -> string) (l : ListVal)
    : string :=
  if IsUnknown l then attr.UnknownValueString
  else if IsNull l then attr.NullValueString
  else writeElements elemString 0 (Elements l) "[" +++ "]".

Fixpoint Value_String (v : Value) : string :=
  match v with
  | VList l => ListValue_String_with Value_String l
  | VOther o => other_String C o
  end.

Definition ListValue_String (l : ListVal) : string := ListValue_String_with Value_String l.

(** *** ElementsAs *)

(** [reflect.Into] is the binding collaborator: it is given the list
    type, the wire value and the options, fills the target and returns
    diagnostics. *)
Definition ElementsAs
    (Into : attr.Type_ -> tftypes.Value -> reflect.Options -> diag.Diagnostics)
    (l : ListVal) (allowUnhandled : bool) : outcome diag.Diagnostics :=
  '(values, err) <- ListValue_ToTerraformValue l ;;
  match err with
  | Some e =>
      Ret [diag.NewErrorDiagnostic "List Element Conversion Error"
             ("An unexpected error was encountered trying to convert list elements. This is always an error in the provider. Please report the following to the provider developer:"
              +++ nl +++ nl +++ e)]
  | None =>
      Ret (Into (attr.TList (elementType l)) values
             (reflect.mkOptions allowUnhandled allowUnhandled))
  end.

(** *** NewListValueFrom *)

(** [reflect.FromValue] is the binding collaborator in the other
    direction: from the list type and a native aggregate it returns an
    [attr.Value], which may be nil, and diagnostics. *)
Definition NewListValueFrom (Native : Type)
    (FromValue : attr.Type_ -> Native -> option Value * diag.Diagnostics)
    (elementType : option attr.Type_) (elements : Native)
    : ListVal * diag.Diagnostics :=
  let '(attrValue, diags) := FromValue (attr.TList elementType) elements in
  if diag.HasError diags then (NewListUnknown elementType, diags)
  else
    match attrValue with
    | Some (VList list) => (list, diags)
    | _ =>
        (zero,
         diag.AddError diags "Unable to Convert List Value"
           ("An unexpected result occurred when creating a List using NewListValueFrom. "
            +++ "This is an issue with terraform-plugin-framework and should be reported to the provider developers."))
    end.

(** *** ToListValue *)

Definition ToListValue (l : ListVal) : ListVal * diag.Diagnostics := (l, []).

End Values.

Arguments VList {Other} l.
Arguments VOther {Other} o.

End basetypes.

(** ** package fwschemadata: semantic equality of dynamic values *)
Module fwschemadata.

Section SemanticEquality.

(** The implementations of [attr.Value] the engine is handed. *)
Variable Value : Type.

(** The type assertion to [basetypes.DynamicValuableWithSemanticEquals]:
    the [DynamicSemanticEquals] method of a value whose type has it. *)
Variable DynamicSemanticEquals : Value -> option (Value -> bool * diag.Diagnostics).

Variable Value_String : Value -> string.

Record ValueSemanticEqualityRequest : Type := mkRequest {
  PriorValue : Value;
  ProposedNewValue : Value
}.

Record ValueSemanticEqualityResponse : Type := mkResponse {
  NewValue : Value;
  Diagnostics : diag.Diagnostics
}.

(** What the function does besides updating the response: the trace
    log entries and the call of the provider-defined method. *)
Inductive event : Type :=
| FrameworkTrace (msg : string) (valueType : string)
| CallDynamicSemanticEquals (proposedNewValuable priorValuable : Value).

Definition ValueSemanticEqualityDynamic
    (req : ValueSemanticEqualityRequest) (resp : ValueSemanticEqualityResponse)
    : ValueSemanticEqualityResponse * list event :=
  match DynamicSemanticEquals (PriorValue req) with
  | None => (resp, [])
  | Some _ =>
      let priorValuable := PriorValue req in
      match DynamicSemanticEquals (ProposedNewValue req) with
      | None => (resp, [])
      | Some semanticEquals =>
          let proposedNewValuable := ProposedNewValue req in
          let '(usePriorValue, diags) := semanticEquals priorValuable in
          let log :=
            [ FrameworkTrace "Calling provider defined type-based SemanticEquals"
                (Value_String proposedNewValuable);
              CallDynamicSemanticEquals proposedNewValuable priorValuable;
              FrameworkTrace "Called provider defined type-based SemanticEquals"
                (Value_String proposedNewValuable) ] in
          let resp := mkResponse (NewValue resp)
                        (diag.Append (Diagnostics resp) diags) in
          if negb usePriorValue then (resp, log)
          else (mkResponse priorValuable (Diagnostics resp), log)
      end
  end.

(** Whether the provider-defined method was called. *)
Definition isCall (e : event) : bool :=
  match e with
  | CallDynamicSemanticEquals _ _ => true
  | FrameworkTrace _ _ => false
  end.

Definition called (log : list event) : bool := existsb isCall log.

End SemanticEquality.

End fwschemadata.

(** ** package schema: the list attribute and its validation *)
Module schema.

Section Validation.

(** [path.Path] and the diagnostics of package fwschema, which are not
    part of the sources at hand. *)
Variable Path : Type.
Variable CollectionWithDynamicTypeDiag : Path -> diag.Diagnostic.

(** The type switch on a non-nil [attr.Type]. *)
Fixpoint checkAttrType (attrPath : Path) (typ : attr.Type_)
    : option diag.Diagnostic :=
  match typ with
  | attr.TDynamic => Some (CollectionWithDynamicTypeDiag attrPath)
  | attr.TList e | attr.TSet e | attr.TMap e =>
      match e with
      | Some elemType => checkAttrType attrPath elemType
      | None => None
      end
  | attr.TTuple elemTypes =>
      (fix loop (ts : list attr.Type_) : option diag.Diagnostic :=
         match ts with
         | [] => None
         | elemType :: rest =>
             match checkAttrType attrPath elemType with
             | Some d => Some d
             | None => loop rest
             end
         end) elemTypes
  | attr.TObject attrTypes =>
      (fix loop (ts : list (string * attr.Type_)) : option diag.Diagnostic :=
         match ts with
         | [] => None
         | (_, objAttrType) :: rest =>
             match checkAttrType attrPath objAttrType with
             | Some d => Some d
             | None => loop rest
             end
         end) attrTypes
  | attr.TPrimitive _ => None
  end.

(** [checkAttrTypeForDynamics]: a nil [attr.Type] falls to the default
    branch of the type switch. *)
Definition checkAttrTypeForDynamics (attrPath : Path) (typ : option attr.Type_)
    : option diag.Diagnostic :=
  match typ with
  | Some t => checkAttrType attrPath t
  | None => None
  end.

End Validation.

Section Attribute.

(** [path.Path], the values the plan holds, the diagnostics of package
    fwschema and of this package, and the implementations of
    [defaults.List], which are not part of the sources at hand. *)
Variable Path : Type.
Variable Other : Type.
Variable Default : Type.
Variable Validator : Type.
Variable PlanModifier : Type.
Variable CollectionWithDynamicTypeDiag : Path -> diag.Diagnostic.
Variable AttributeMissingElementTypeDiag : Path -> diag.Diagnostic.
Variable nonComputedAttributeWithDefaultDiag : Path -> diag.Diagnostic.
Variable AttributeDefaultElementTypeMismatchDiag :
  Path -> attr.Type_ -> option attr.Type_ -> diag.Diagnostic.

(** [defaults.ListRequest] and [defaults.ListResponse]. *)
Record ListRequest : Type := mkListRequest {
  request_Path : Path
}.

Record ListResponse : Type := mkListResponse {
  response_Diagnostics : diag.Diagnostics;
  PlanValue : basetypes.ListVal Other
}.

(** The [DefaultList] method of a default. *)
Variable DefaultList : Default -> ListRequest -> ListResponse.

Record ListAttribute : Type := mkListAttribute {
  ElementType : option attr.Type_;
  CustomType : option attr.Type_;
  Required : bool;
  Optional : bool;
  Computed : bool;
  Sensitive : bool;
  Description : string;
  MarkdownDescription : string;
  DeprecationMessage : string;
  Validators : list Validator;
  PlanModifiers : list PlanModifier;
  Default_ : option Default
}.

Definition GetDeprecationMessage (a : ListAttribute) : string := DeprecationMessage a.
Definition GetDescription (a : ListAttribute) : string := Description a.
Definition GetMarkdownDescription (a : ListAttribute) : string := MarkdownDescription a.

Definition GetType (a : ListAttribute) : attr.Type_ :=
  match CustomType a with
  | Some customType => customType
  | None => attr.TList (ElementType a)
  end.

Definition IsComputed (a : ListAttribute) : bool := Computed a.
Definition IsOptional (a : ListAttribute) : bool := Optional a.
Definition IsRequired (a : ListAttribute) : bool := Required a.
Definition IsSensitive (a : ListAttribute) : bool := Sensitive a.
Definition ListDefaultValue (a : ListAttribute) : option Default := Default_ a.
Definition ListPlanModifiers (a : ListAttribute) : list PlanModifier := PlanModifiers a.
Definition ListValidators (a : ListAttribute) : list Validator := Validators a.

(** [resp.Diagnostics.Append(d)] with a diagnostic that may be nil: a nil
    diagnostic is not appended. *)
Definition appendDiagnostic (diags : diag.Diagnostics) (d : option diag.Diagnostic)
    : diag.Diagnostics :=
  match d with
  | Some d => diag.Append diags [d]
  | None => diags
  end.

(** [ValidateImplementation], from the path of the request and the
    diagnostics of the response to the diagnostics of the response. *)
Definition ValidateImplementation (a : ListAttribute) (reqPath : Path)
    (respDiagnostics : diag.Diagnostics) : diag.Diagnostics :=
  let diags :=
    if basetypes.isNil (CustomType a) && basetypes.isNil (ElementType a)
    then diag.Append respDiagnostics [AttributeMissingElementTypeDiag reqPath]
    else respDiagnostics in
  let diags :=
    match ElementType a with
    | Some _ =>
        appendDiagnostic diags
          (checkAttrTypeForDynamics CollectionWithDynamicTypeDiag reqPath (ElementType a))
    | None => diags
    end in
  match ListDefaultValue a with
  | None => diags
  | Some default =>
      let diags :=
        if negb (IsComputed a)
        then diag.Append diags [nonComputedAttributeWithDefaultDiag reqPath]
        else diags in
      let defaultReq := mkListRequest reqPath in
      let defaultResp := DefaultList default defaultReq in
      let diags := diag.Append diags (response_Diagnostics defaultResp) in
      if diag.HasError (response_Diagnostics defaultResp) then diags
      else
        match ElementType a with
        | Some elementType =>
            if negb (attr.Type_Equal elementType
                       (basetypes.ElementType (PlanValue defaultResp)))
            then diag.Append diags
                   [AttributeDefaultElementTypeMismatchDiag reqPath elementType
                      (basetypes.ElementType (PlanValue defaultResp))]
            else diags
        | None => diags
        end
  end.

End Attribute.

End schema.

(** ** Go slices over a store of backing arrays

    A slice is a window on a backing array; the store holds the arrays by
    address.  Writing through a slice writes into its array, so two slices
    on one array see each other's writes. *)
Module slices.

Record slice : Type := mkSlice {
  array : nat;
  offset : nat;
  len : nat;
  cap : nat
}.

Section Store.

(** The element type and its zero value. *)
Variable A : Type.
Variable zeroValue : A.

Definition store : Type := list (list A).

Definition arrayAt (h : store) (a : nat) : list A := nth a h [].

(** The elements a slice shows. *)
Definition load (h : store) (s : slice) : list A :=
  firstn (len s) (skipn (offset s) (arrayAt h (array s))).

Fixpoint setNth (i : nat) (x : A) (xs : list A) : list A :=
  match xs, i with
  | [], _ => []
  | _ :: xs', 0 => x :: xs'
  | y :: xs', S i' => y :: setNth i' x xs'
  end.

Fixpoint setArray (a : nat) (f : list A -> list A) (h : store) : store :=
  match h, a with
  | [], _ => []
  | arr :: h', 0 => f arr :: h'
  | arr :: h', S a' => arr :: setArray a' f h'
  end.

(** [make([]T, 0, capacity)]: a fresh array of zero values and an empty
    slice on it. *)
Definition make (h : store) (capacity : nat) : store * slice :=
  (h ++ [repeat zeroValue capacity], mkSlice (List.length h) 0 0 capacity).

(** The array with [xs] copied into it from position [i] on. *)
Definition writeFrom (i : nat) (xs : list A) (arr : list A) : list A :=
  firstn i arr ++ xs ++ skipn (i + List.length xs) arr.

(** [append(s, xs...)]: in place while the capacity suffices, into a
    fresh array otherwise. *)
Definition append (h : store) (s : slice) (xs : list A) : store * slice :=
  if Nat.leb (len s + List.length xs) (cap s) then
    (setArray (array s) (writeFrom (offset s + len s) xs) h,
     mkSlice (array s) (offset s) (len s + List.length xs) (cap s))
  else
    let contents := load h s ++ xs in
    (h ++ [contents],
     mkSlice (List.length h) 0 (List.length contents) (List.length contents)).

(** [s[i] = x]. *)
Definition assign (h : store) (s : slice) (i : nat) (x : A) : outcome store :=
  if Nat.ltb i (len s) then Ret (setArray (array s) (setNth (offset s + i) x) h)
  else Panic IndexOutOfRange.

(** What a caller may do with a slice it holds. *)
Inductive mutation : Type :=
| Assign (i : nat) (x : A)
| AppendTo (xs : list A).

Fixpoint mutate (h : store) (s : slice) (ms : list mutation)
    : outcome (store * slice) :=
  match ms with
  | [] => Ret (h, s)
  | Assign i x :: rest =>
      h' <- assign h s i x ;;
      mutate h' s rest
  | AppendTo xs :: rest =>
      let '(h', s') := append h s xs in
      mutate h' s' rest
  end.

(** The [ListValue] struct as it lies in memory: [elements] is a
    slice. *)
Record ListValueRef : Type := mkListValueRef {
  elements : slice;
  elementType : option attr.Type_;
  state : attr.ValueState
}.

(** [ListValue.Elements]. *)
Definition Elements (h : store) (l : ListValueRef) : store * slice :=
  let '(h1, result) := make h (len (elements l)) in
  append h1 result (load h1 (elements l)).

(** The slice is within the store. *)
Definition inStore (h : store) (s : slice) : Prop :=
  array s < List.length h.

End Store.

End slices.

(** ** package testtypes: concrete collaborators

    Modelled from the spec: the string, number and dynamic values of
    basetypes, the wire types of the type descriptors and the validation of
    tftypes are not part of the sources at hand.  The values below follow
    sections 3, 4.2 and 4.3: a value is tagged with its state, only a known
    value carries data, null and unknown values convert to the null and the
    unknown marker of their wire type, and a dynamic value converts as the
    value it holds, or to a marker of the dynamic placeholder type.  They
    serve as concrete inputs. *)
Module testtypes.

Inductive Base : Type :=
| StringValue (state : attr.ValueState) (value : string)
| NumberValue (state : attr.ValueState) (value : N)
| DynamicValue (state : attr.ValueState) (value : option Base)
| DynamicValueWithSemanticEquals (state : attr.ValueState) (value : option Base)
    (SemanticEquals : bool) (SemanticEqualsDiagnostics : diag.Diagnostics).

Definition Base_state (v : Base) : attr.ValueState :=
  match v with
  | StringValue st _ | NumberValue st _ | DynamicValue st _
  | DynamicValueWithSemanticEquals st _ _ _ => st
  end.

Definition Base_IsNull (v : Base) : bool := N.eqb (Base_state v) attr.ValueStateNull.
Definition Base_IsUnknown (v : Base) : bool := N.eqb (Base_state v) attr.ValueStateUnknown.

Definition Base_Type (v : Base) : attr.Type_ :=
  match v with
  | StringValue _ _ => attr.TPrimitive attr.PString
  | NumberValue _ _ => attr.TPrimitive attr.PNumber
  | DynamicValue _ _ | DynamicValueWithSemanticEquals _ _ _ _ => attr.TDynamic
  end.

Fixpoint Base_eqb (v o : Base) : bool :=
  match v, o with
  | StringValue st s, StringValue st' s' =>
      N.eqb st st' && (negb (N.eqb st attr.ValueStateKnown) || String.eqb s s')
  | NumberValue st n, NumberValue st' n' =>
      N.eqb st st' && (negb (N.eqb st attr.ValueStateKnown) || N.eqb n n')
  | DynamicValue st x, DynamicValue st' x'
  | DynamicValueWithSemanticEquals st x _ _,
    DynamicValueWithSemanticEquals st' x' _ _ =>
      N.eqb st st'
      && (negb (N.eqb st attr.ValueStateKnown)
          || match x, x' with
             | Some a, Some b => Base_eqb a b
             | None, None => true
             | _, _ => false
             end)
  | _, _ => false
  end.

Definition Base_Equal (v : Base) (o : basetypes.Value Base) : bool :=
  match o with
  | basetypes.VOther b => Base_eqb v b
  | basetypes.VList _ => false
  end.

Definition marker (t : tftypes.Type_) (st : attr.ValueState)
    (known : tftypes.Value * option error) : tftypes.Value * option error :=
  if N.eqb st attr.ValueStateKnown then known
  else if N.eqb st attr.ValueStateNull then (tftypes.NewValue t tftypes.Nil, None)
  else if N.eqb st attr.ValueStateUnknown then
    (tftypes.NewValue t tftypes.UnknownValue, None)
  else (tftypes.NewValue t tftypes.UnknownValue, Some "unhandled state").

Fixpoint Base_ToTerraformValue (v : Base) : tftypes.Value * option error :=
  match v with
  | StringValue st s =>
      marker tftypes.String_ st (tftypes.NewValue tftypes.String_ (tftypes.Str s), None)
  | NumberValue st n =>
      marker tftypes.Number st (tftypes.NewValue tftypes.Number (tftypes.Num n), None)
  | DynamicValue st x | DynamicValueWithSemanticEquals st x _ _ =>
      marker tftypes.DynamicPseudoType st
        match x with
        | Some u => Base_ToTerraformValue u
        | None =>
            (tftypes.NewValue tftypes.DynamicPseudoType tftypes.UnknownValue,
             Some "known dynamic value without an underlying value")
        end
  end.

Fixpoint Base_String (v : Base) : string :=
  if Base_IsUnknown v then attr.UnknownValueString
  else if Base_IsNull v then attr.NullValueString
  else
    match v with
    | StringValue _ s => s
    | NumberValue _ n => itoa (N.to_nat n)
    | DynamicValue _ x | DynamicValueWithSemanticEquals _ x _ _ =>
        match x with
        | Some u => Base_String u
        | None => attr.UnknownValueString
        end
    end.

Fixpoint TerraformType (t : attr.Type_) : tftypes.Type_ :=
  let elem (e : option attr.Type_) : tftypes.Type_ :=
    match e with
    | Some u => TerraformType u
    | None => tftypes.DynamicPseudoType
    end in
  match t with
  | attr.TPrimitive attr.PBool => tftypes.Bool
  | attr.TPrimitive attr.PString => tftypes.String_
  | attr.TPrimitive _ => tftypes.Number
  | attr.TDynamic => tftypes.DynamicPseudoType
  | attr.TList e => tftypes.List_ (elem e)
  | attr.TSet e => tftypes.Set_ (elem e)
  | attr.TMap e => tftypes.Map_ (elem e)
  | attr.TTuple ts => tftypes.Tuple (map TerraformType ts)
  | attr.TObject ats =>
      tftypes.Object (map (fun kt => (fst kt, TerraformType (snd kt))) ats)
  end.

Fixpoint Type_String (t : attr.Type_) : string :=
  let elem (e : option attr.Type_) : string :=
    match e with
    | Some u => Type_String u
    | None => "missing"
    end in
  match t with
  | attr.TPrimitive attr.PBool => "basetypes.BoolType"
  | attr.TPrimitive attr.PString => "basetypes.StringType"
  | attr.TPrimitive attr.PNumber => "basetypes.NumberType"
  | attr.TPrimitive attr.PInt64 => "basetypes.Int64Type"
  | attr.TPrimitive attr.PFloat64 => "basetypes.Float64Type"
  | attr.TDynamic => "basetypes.DynamicType"
  | attr.TList e => "types.ListType[" +++ elem e +++ "]"
  | attr.TSet e => "types.SetType[" +++ elem e +++ "]"
  | attr.TMap e => "types.MapType[" +++ elem e +++ "]"
  | attr.TTuple ts => "types.TupleType[" +++ Join (map Type_String ts) ", " +++ "]"
  | attr.TObject ats =>
      "types.ObjectType["
      +++ Join (map (fun kt => fst kt +++ ":" +++ Type_String (snd kt)) ats) ", "
      +++ "]"
  end.

Definition ValueState_String (st : attr.ValueState) : string :=
  if N.eqb st attr.ValueStateNull then "ValueStateNull"
  else if N.eqb st attr.ValueStateUnknown then "ValueStateUnknown"
  else if N.eqb st attr.ValueStateKnown then "ValueStateKnown"
  else "unknown".

Fixpoint tfType_eqb (t u : tftypes.Type_) : bool :=
  match t, u with
  | tftypes.Bool, tftypes.Bool
  | tftypes.Number, tftypes.Number
  | tftypes.String_, tftypes.String_
  | tftypes.DynamicPseudoType, tftypes.DynamicPseudoType => true
  | tftypes.List_ a, tftypes.List_ b
  | tftypes.Set_ a, tftypes.Set_ b
  | tftypes.Map_ a, tftypes.Map_ b => tfType_eqb a b
  | _, _ => false
  end.

(** A list payload is accepted when every element can be used as the
    element type of the list and all elements are of one type. *)
Definition ValidateValue (t : tftypes.Type_) (vals : list tftypes.Value)
    : option error :=
  match t with
  | tftypes.List_ e =>
      let usable (v : tftypes.Value) : bool :=
        tftypes.Is_DynamicPseudoType e || tfType_eqb (tftypes.Type_of v) e in
      let sameAsFirst (v : tftypes.Value) : bool :=
        match vals with
        | [] => true
        | v0 :: _ => tfType_eqb (tftypes.Type_of v) (tftypes.Type_of v0)
        end in
      if forallb usable vals && forallb sameAsFirst vals then None
      else Some "lists must only contain one type of element"
  | _ => Some "not a list type"
  end.

Definition collaborators : basetypes.Collaborators Base :=
  basetypes.mkCollaborators
    Base_Type Base_Equal (fun v => Ret (Base_ToTerraformValue v)) Base_String
    Base_IsNull Base_IsUnknown
    TerraformType Type_String ValueState_String ValidateValue.

(** The type assertion of the semantic-equality engine. *)
Definition Base_DynamicSemanticEquals (v : Base)
    : option (Base -> bool * diag.Diagnostics) :=
  match v with
  | DynamicValueWithSemanticEquals _ _ b ds => Some (fun _ => (b, ds))
  | _ => None
  end.

(** *** Concrete inputs *)

Definition known : attr.ValueState := attr.ValueStateKnown.
Definition StringType : attr.Type_ := attr.TPrimitive attr.PString.

Definition knownString (s : string) : basetypes.Value Base := basetypes.VOther (StringValue known s).
Definition unknownDynamic : basetypes.Value Base :=
  basetypes.VOther (DynamicValue attr.ValueStateUnknown None).
Definition dynamicString (s : string) : basetypes.Value Base :=
  basetypes.VOther (DynamicValue known (Some (StringValue known s))).

(** [list<dynamic>] holding an unknown dynamic value and the string x. *)
Definition dynamicList : basetypes.ListVal Base :=
  basetypes.mkListValue [unknownDynamic; dynamicString "x"] (Some attr.TDynamic) known.

(** Two known lists of strings, the first one nested in neither. *)
Definition stringsAB : basetypes.ListVal Base :=
  basetypes.mkListValue [knownString "a"; knownString "b"] (Some StringType) known.
Definition stringsAC : basetypes.ListVal Base :=
  basetypes.mkListValue [knownString "a"; knownString "c"] (Some StringType) known.

Definition nullStrings : basetypes.ListVal Base := basetypes.NewListNull Base (Some StringType).

(** A binding collaborator that reports the options it is given. *)
Definition reportOptions (_ : attr.Type_) (_ : tftypes.Value) (o : reflect.Options)
    : diag.Diagnostics :=
  [diag.mkDiagnostic diag.SeverityWarning
     (if reflect.UnhandledNullAsEmpty o then "null as empty" else "null as error")
     (if reflect.UnhandledUnknownAsEmpty o
      then "unknown as empty" else "unknown as error")].

(** A null prior value and a known proposed value of a provider-defined
    dynamic type with semantic equality, which answers: use the prior
    value. *)
Definition nullPrior : Base :=
  DynamicValueWithSemanticEquals attr.ValueStateNull None true [].
Definition knownProposed : Base :=
  DynamicValueWithSemanticEquals known (Some (StringValue known "x")) true [].

Definition request : fwschemadata.ValueSemanticEqualityRequest Base :=
  fwschemadata.mkRequest nullPrior knownProposed.
Definition response : fwschemadata.ValueSemanticEqualityResponse Base :=
  fwschemadata.mkResponse knownProposed [].

(** A store with the backing array of a two-element list at address 1. *)
Definition store0 : slices.store (option (basetypes.Value Base)) :=
  [[]; [Some (knownString "a"); Some (knownString "b")]].
Definition listRef : slices.ListValueRef :=
  slices.mkListValueRef (slices.mkSlice 1 0 2 2) (Some StringType) known.

End testtypes.

(** * Properties *)

(** ** Outcomes and strings *)

Lemma bind_Ret_inv {A B} (m : outcome A) (k : A -> outcome B) (b : B) :
  bind m k = Ret b -> exists a, m = Ret a /\ k a = Ret b.
Proof. destruct m as [a|p]; simpl; intros H; [eauto | discriminate]. Qed.

Lemma append_assoc (a b c : string) : (a +++ b) +++ c = a +++ b +++ c.
Proof. induction a as [|ch a IH]; simpl; [reflexivity | now rewrite IH]. Qed.

(** [needle] occurs in [hay]. *)
Definition occursIn (needle hay : string) : Prop :=
  exists pre post, hay = pre +++ needle +++ post.

Lemma occursIn_refl (x : string) : occursIn x x.
Proof.
  exists "", "". simpl. induction x as [|c x IH]; simpl; [reflexivity|].
  now rewrite <- IH.
Qed.

Lemma occursIn_head (x q : string) : occursIn x (x +++ q).
Proof. exists "", q. reflexivity. Qed.

Lemma occursIn_after (x p s : string) : occursIn x s -> occursIn x (p +++ s).
Proof.
  intros (pre & post & ->). exists (p +++ pre), post.
  now rewrite append_assoc.
Qed.


(** ** Type descriptors *)
Module attr_facts.
Import attr.

Lemma Primitive_eqb_refl p : Primitive_eqb p p = true.
Proof. destruct p; reflexivity. Qed.

Lemma Primitive_eqb_sym p q : Primitive_eqb p q = Primitive_eqb q p.
Proof. destruct p, q; reflexivity. Qed.

Lemma Type_eqb_refl t : Type_eqb t t = true.
Proof.
  induction t using Type_nested_ind; simpl.
  - apply Primitive_eqb_refl.
  - reflexivity.
  - destruct e; auto.
  - destruct e; auto.
  - destruct e; auto.
  - induction H as [|x ts Hx _ IH]; [reflexivity|].
    now rewrite Hx, IH.
  - induction H as [|[k x] ats Hx _ IH]; [reflexivity|].
    simpl in Hx. now rewrite String.eqb_refl, Hx, IH.
Qed.

Lemma Type_eqb_sym t : forall u, Type_eqb t u = Type_eqb u t.
Proof.
  induction t using Type_nested_ind; intros u; destruct u; simpl;
    try reflexivity.
  - apply Primitive_eqb_sym.
  - destruct e, ElemType; simpl in *; auto.
  - destruct e, ElemType; simpl in *; auto.
  - destruct e, ElemType; simpl in *; auto.
  - revert ElemTypes.
    induction H as [|x ts Hx _ IH]; intros [|y us]; try reflexivity.
    now rewrite Hx, IH.
  - revert AttrTypes.
    induction H as [|[k x] ats Hx _ IH]; intros [|[k' y] us];
      try reflexivity.
    simpl in Hx. now rewrite String.eqb_sym, Hx, IH.
Qed.

Lemma Type_Equal_refl t : Type_Equal t (Some t) = true.
Proof. apply Type_eqb_refl. Qed.

Lemma Type_Equal_sym t u : Type_Equal t (Some u) = Type_Equal u (Some t).
Proof. apply Type_eqb_sym. Qed.

End attr_facts.

(** ** List values: equality *)
Module basetypes_facts.
Import basetypes.

Section Induction.
Variable Other : Type.
Variable P : Value Other -> Prop.
Hypothesis HList : forall l, Forall P (elements l) -> P (VList l).
Hypothesis HOther : forall o, P (VOther o).

(** Structural induction through the elements of nested lists. *)
Fixpoint Value_nested_ind (v : Value Other) : P v :=
  match v with
  | VList l =>
      HList l
        ((fix go (es : list (Value Other)) : Forall P es :=
            match es with
            | [] => Forall_nil P
            | e :: es' => Forall_cons e (Value_nested_ind e) (go es')
            end) (elements l))
  | VOther o => HOther o
  end.
End Induction.

Section Equality.
Variable Other : Type.
Variable C : Collaborators Other.

(** The equality of section 4.2, in the words of the specification: the
    other value is a list value too, the element types are equal, the
    states are equal and, for known values only, the elements are equal
    in number and pointwise, in order. *)
Definition equalSpec (l : ListVal Other) (o : Value Other) : Prop :=
  exists other,
    o = VList other
    /\ (exists t, elementType l = Some t
                  /\ attr.Type_Equal t (elementType other) = true)
    /\ state l = state other
    /\ (state l = attr.ValueStateKnown ->
        Forall2 (fun a b => Value_Equal C a b = Ret true)
          (elements l) (elements other)).

Lemma elementsEqual_true (f : Value Other -> Value Other -> outcome bool) xs :
  forall ys, List.length xs = List.length ys ->
    (elementsEqual f xs ys = Ret true
     <-> Forall2 (fun a b => f a b = Ret true) xs ys).
Proof.
  induction xs as [|x xs IH]; intros [|y ys] Hlen; simpl in *;
    try discriminate.
  - split; [constructor | reflexivity].
  - injection Hlen as Hlen. specialize (IH ys Hlen).
    destruct (f x y) as [[|]|p] eqn:E; simpl.
    + rewrite IH. split.
      * intros H. now constructor.
      * intros H. now inversion H.
    + split; [discriminate|]. intros H. inversion H; subst. congruence.
    + split; [discriminate|]. intros H. inversion H; subst. congruence.
Qed.

Lemma ListValue_Equal_unfold (l : ListVal Other) (o : Value Other) :
  Value_Equal C (VList l) o = ListValue_Equal C l o.
Proof. reflexivity. Qed.

Lemma ListValue_Equal_spec (l : ListVal Other) (o : Value Other) :
  ListValue_Equal C l o = Ret true <-> equalSpec l o.
Proof.
  unfold ListValue_Equal, ListValue_Equal_with, equalSpec.
  destruct o as [other|x].
  2:{ split; [discriminate|]. intros (other & Ho & _). discriminate. }
  destruct (elementType l) as [t|] eqn:Et.
  2:{ split; [discriminate|].
      intros (other' & _ & (t & Ht & _) & _). discriminate. }
  destruct (attr.Type_Equal t (elementType other)) eqn:Ety; simpl.
  2:{ split; [discriminate|].
      intros (other' & Ho & (t' & Ht' & Heq) & _).
      injection Ho as <-. injection Ht' as <-. congruence. }
  destruct (N.eqb (state l) (state other)) eqn:Est; simpl.
  2:{ split; [discriminate|].
      intros (other' & Ho & _ & Hst & _). injection Ho as <-.
      apply N.eqb_neq in Est. contradiction. }
  apply N.eqb_eq in Est.
  destruct (N.eqb (state l) attr.ValueStateKnown) eqn:Ek; simpl.
  - apply N.eqb_eq in Ek.
    destruct (Nat.eqb (List.length (elements l))
                (List.length (elements other))) eqn:Elen; simpl.
    + apply Nat.eqb_eq in Elen.
      rewrite (elementsEqual_true (Value_Equal C) _ _ Elen).
      split.
      * intros H. exists other. repeat split; eauto.
      * intros (other' & Ho & _ & _ & H). injection Ho as <-. auto.
    + split; [discriminate|].
      intros (other' & Ho & _ & _ & H). injection Ho as <-.
      apply Nat.eqb_neq in Elen. apply Forall2_length in H; auto.
      contradiction.
  - apply N.eqb_neq in Ek. split; [|reflexivity].
    intros _. exists other. repeat split; eauto. intros; contradiction.
Qed.

(** Every list value within [v], [v] included, has its element type
    set. *)
Fixpoint hasElementTypes (v : Value Other) : bool :=
  match v with
  | VList l =>
      negb (isNil (elementType l)) && forallb hasElementTypes (elements l)
  | VOther _ => true
  end.




Section WellBehavedElements.

(** The [Equal] methods of the other values are reflexive and
    symmetric, and none of them takes a list value for an equal. *)
Hypothesis other_Equal_refl :
  forall o, other_Equal C o (VOther o) = true.
Hypothesis other_Equal_sym :
  forall o o', other_Equal C o (VOther o') = other_Equal C o' (VOther o).
Hypothesis other_Equal_list :
  forall o l, other_Equal C o (VList l) = false.

Lemma Value_Equal_refl (v : Value Other) :
  hasElementTypes v = true -> Value_Equal C v v = Ret true.
Proof.
  induction v as [l IH|o] using Value_nested_ind; intros Hty.
  - rewrite ListValue_Equal_unfold. apply ListValue_Equal_spec.
    simpl in Hty. apply andb_true_iff in Hty as [Ht Hes].
    exists l. split; [reflexivity|].
    destruct (elementType l) as [t|] eqn:Et; [|discriminate].
    split; [exists t; split; [reflexivity | apply attr_facts.Type_Equal_refl]|].
    split; [reflexivity|]. intros _.
    rewrite forallb_forall in Hes.
    induction IH as [|e es He _ IHes]; constructor.
    + apply He, Hes. now left.
    + apply IHes. intros x Hx. apply Hes. now right.
  - simpl. now rewrite other_Equal_refl.
Qed.

Lemma elementsEqual_sym (xs : list (Value Other)) :
  Forall (fun x => hasElementTypes x = true ->
            forall y, hasElementTypes y = true ->
              exists r, Value_Equal C x y = Ret r /\ Value_Equal C y x = Ret r) xs ->
  forallb hasElementTypes xs = true ->
  forall ys, forallb hasElementTypes ys = true ->
    List.length xs = List.length ys ->
    exists r, elementsEqual (Value_Equal C) xs ys = Ret r
              /\ elementsEqual (Value_Equal C) ys xs = Ret r.
Proof.
  induction 1 as [|x xs Hx _ IH]; intros Hxs [|y ys] Hys Hlen;
    simpl in Hlen; try discriminate.
  - exists true. split; reflexivity.
  - simpl in Hxs, Hys.
    apply andb_true_iff in Hxs as [Htx Hxs].
    apply andb_true_iff in Hys as [Hty Hys].
    injection Hlen as Hlen.
    destruct (Hx Htx y Hty) as (r0 & E1 & E2).
    destruct (IH Hxs ys Hys Hlen) as (r & E3 & E4).
    simpl. rewrite E1, E2. simpl.
    destruct r0; simpl; eauto.
Qed.

Lemma Value_Equal_sym (v : Value Other) :
  hasElementTypes v = true ->
  forall w, hasElementTypes w = true ->
    exists r, Value_Equal C v w = Ret r /\ Value_Equal C w v = Ret r.
Proof.
  induction v as [l IH|o] using Value_nested_ind; intros Hv [m|o'] Hw.
  - simpl in Hv, Hw.
    apply andb_true_iff in Hv as [Htl Hl].
    apply andb_true_iff in Hw as [Htm Hm].
    simpl. unfold ListValue_Equal_with.
    destruct (elementType l) as [t|]; [|discriminate].
    destruct (elementType m) as [u|]; [|discriminate].
    rewrite (attr_facts.Type_Equal_sym u t).
    destruct (attr.Type_Equal t (Some u)); simpl; [|eauto].
    rewrite (N.eqb_sym (state m) (state l)).
    destruct (N.eqb (state l) (state m)) eqn:Est; simpl; [|eauto].
    apply N.eqb_eq in Est. rewrite <- Est.
    destruct (N.eqb (state l) attr.ValueStateKnown); simpl; [|eauto].
    rewrite (Nat.eqb_sym (List.length (elements m))).
    destruct (Nat.eqb (List.length (elements l)) (List.length (elements m)))
      eqn:Elen; simpl; [|eauto].
    apply Nat.eqb_eq in Elen.
    now apply elementsEqual_sym.
  - exists false. simpl. now rewrite other_Equal_list.
  - exists false. simpl. now rewrite other_Equal_list.
  - simpl. rewrite (other_Equal_sym o' o). eauto.
Qed.

(** C5, amended.  On list values whose element type is set, at every
    level of nesting, and whose other elements have a reflexive and
    symmetric [Equal]: [Equal(v, v)] is true, and [Equal(a, b)] and
    [Equal(b, a)] both return, with the same boolean. *)
Theorem ListValue_Equal_refl_sym :
  (forall l : ListVal Other,
      hasElementTypes (VList l) = true ->
      ListValue_Equal C l (VList l) = Ret true)
  /\ (forall a b : ListVal Other,
         hasElementTypes (VList a) = true ->
         hasElementTypes (VList b) = true ->
         exists r, ListValue_Equal C a (VList b) = Ret r
                   /\ ListValue_Equal C b (VList a) = Ret r).
Proof.
  split.
  - intros l Hl. rewrite <- ListValue_Equal_unfold.
    now apply Value_Equal_refl.
  - intros a b Ha Hb. rewrite <- !ListValue_Equal_unfold.
    now apply Value_Equal_sym.
Qed.

End WellBehavedElements.

End Equality.

End basetypes_facts.

(** ** List values: construction *)
Module construction_facts.
Import basetypes.

Section Construction.
Variable Other : Type.
Variable C : Collaborators Other.

Definition invalidElement (t : attr.Type_) (idx : nat) (e : Value Other)
    : diag.Diagnostic :=
  diag.NewErrorDiagnostic "Invalid List Element Type"
    (invalidElementDetail C t idx (Value_Type C e)).

Definition mismatch (t : attr.Type_) (e : Value Other) : bool :=
  negb (attr.Type_Equal t (Some (Value_Type C e))).

(** The diagnostics of the elements whose type is not [t], by index,
    counting from [idx]. *)
Fixpoint mismatches (t : attr.Type_) (idx : nat) (es : list (Value Other))
    : diag.Diagnostics :=
  match es with
  | [] => []
  | e :: rest =>
      (if mismatch t e then [invalidElement t idx e] else [])
      ++ mismatches t (S idx) rest
  end.

Lemma present_map_Some (es : list (Value Other)) : present (map Some es) = es.
Proof. induction es as [|e es IH]; simpl; [reflexivity | now rewrite IH]. Qed.

Lemma checkElements_mismatches t es :
  forall idx diags,
    checkElements C (Some t) idx (map Some es) diags
    = Ret (diags ++ mismatches t idx es).
Proof.
  induction es as [|e es IH]; intros idx diags; simpl.
  - now rewrite app_nil_r.
  - rewrite IH. unfold mismatch, diag.AddError, invalidElement.
    destruct (negb _); simpl; [now rewrite <- app_assoc | reflexivity].
Qed.

Lemma checkElements_nil_element ety (elements : list (option (Value Other))) :
  In None elements ->
  forall idx diags, checkElements C ety idx elements diags = Panic NilDereference.
Proof.
  induction elements as [|x elements IH]; intros Hin idx diags; [contradiction|].
  simpl. destruct x as [e|]; [|reflexivity].
  destruct ety as [t|]; [|reflexivity].
  apply IH. destruct Hin as [Hx|Hin]; [discriminate | exact Hin].
Qed.

Lemma checkElements_returns ety (elements : list (option (Value Other))) :
  forall idx diags diags',
    checkElements C ety idx elements diags = Ret diags' ->
    elements = map Some (present elements).
Proof.
  induction elements as [|x elements IH]; intros idx diags diags' H;
    [reflexivity|].
  simpl in H. destruct x as [e|]; [|discriminate].
  destruct ety as [t|]; [|discriminate].
  simpl. f_equal. eapply IH. exact H.
Qed.



Lemma mismatches_isError t es :
  forall idx, forallb diag.isError (mismatches t idx es) = true.
Proof.
  induction es as [|x es IH]; intros idx; simpl; [reflexivity|].
  rewrite forallb_app, IH. destruct (mismatch t x); reflexivity.
Qed.




Lemma NewListValue_diags (ety : option attr.Type_)
    (elements : list (option (Value Other))) l diags :
  NewListValue C ety elements = Ret (l, diags) ->
  diag.HasError diags = match diags with [] => false | _ :: _ => true end.
Proof.
  unfold NewListValue. intros H.
  apply bind_Ret_inv in H as (ds & _ & H).
  destruct (diag.HasError ds) eqn:E; injection H as <- <-.
  - rewrite E. destruct ds; [discriminate | reflexivity].
  - reflexivity.
Qed.

Lemma occursIn_trans (a b c : string) : occursIn a b -> occursIn b c -> occursIn a c.
Proof.
  intros (p1 & q1 & ->) (p2 & q2 & ->).
  exists (p2 +++ p1), (q1 +++ q2). now rewrite !append_assoc.
Qed.

Lemma occursIn_Join (parts : list string) (sep x : string) :
  In x parts -> occursIn x (Join parts sep).
Proof.
  induction parts as [|p parts IH]; intros Hin; [contradiction|].
  destruct parts as [|q parts].
  - destruct Hin as [->|[]]. apply occursIn_refl.
  - change (Join (p :: q :: parts) sep) with (p +++ sep +++ Join (q :: parts) sep).
    destruct Hin as [->|Hin].
    + apply occursIn_head.
    + do 2 apply occursIn_after. now apply IH.
Qed.

(** The text a diagnostic contributes to the panic: severity, summary and
    detail, separated by bars. *)
Definition barSeparated (d : diag.Diagnostic) : string :=
  diag.Severity_String (diag.severity d) +++ " | " +++ diag.Summary d
  +++ " | " +++ diag.Detail d.

Lemma barSeparated_holds (d : diag.Diagnostic) :
  occursIn (diag.Severity_String (diag.severity d)) (barSeparated d)
  /\ occursIn (diag.Summary d) (barSeparated d)
  /\ occursIn (diag.Detail d) (barSeparated d).
Proof.
  unfold barSeparated. repeat split.
  - apply occursIn_head.
  - do 2 apply occursIn_after. apply occursIn_head.
  - do 4 apply occursIn_after. apply occursIn_refl.
Qed.

(** C7.  [NewListValueMust] calls [NewListValue] and nothing else: when
    that returns diagnostics it panics with a text that holds every one
    of them: the text is the fixed prefix followed by the severity, the
    summary and the detail of each diagnostic, one diagnostic per line; when
    it returns none the result is the very value it returned, and when it
    panics so does the wrapper. *)
Theorem NewListValueMust_wraps
    (ety : option attr.Type_) (elements : list (option (Value Other))) :
  match NewListValue C ety elements with
  | Ret (l, []) => NewListValueMust C ety elements = Ret l
  | Ret (l, d :: ds) =>
      exists text,
        NewListValueMust C ety elements = Panic (PanicMsg text)
        /\ text = "NewListValueMust received error(s): "
                  +++ Join (map (fun x =>
                                   diag.Severity_String (diag.severity x)
                                   +++ " | " +++ diag.Summary x
                                   +++ " | " +++ diag.Detail x) (d :: ds)) nl
        /\ (forall x, In x (d :: ds) ->
              occursIn (diag.Severity_String (diag.severity x)) text
              /\ occursIn (diag.Summary x) text
              /\ occursIn (diag.Detail x) text)
  | Panic p => NewListValueMust C ety elements = Panic p
  end.
Proof.
  unfold NewListValueMust.
  destruct (NewListValue C ety elements) as [[l diags]|p] eqn:E;
    cbv beta iota delta [bind]; [|reflexivity].
  rewrite (NewListValue_diags _ _ E).
  destruct diags as [|d ds]; [reflexivity|].
  eexists. split; [reflexivity|]. split; [reflexivity|].
  intros x Hx.
  assert (Hline : occursIn (barSeparated x)
                    ("NewListValueMust received error(s): "
                     +++ Join (map diagString (d :: ds)) nl)).
  { apply occursIn_after. apply occursIn_Join.
    change (barSeparated x) with (diagString x). now apply in_map. }
  destruct (barSeparated_holds x) as (H1 & H2 & H3).
  repeat split; eapply occursIn_trans; eauto.
Qed.

End Construction.

End construction_facts.

(** ** List values: conversion to the wire form *)
Module wire_facts.
Import basetypes.

Section Wire.
Variable Other : Type.
Variable C : Collaborators Other.

(** A wire value that is not a dynamic placeholder. *)
Definition concrete (w : tftypes.Value) : bool :=
  negb (tftypes.Is_DynamicPseudoType (tftypes.Type_of w)).

(** The adopted element type, in the words of the specification: the
    type of the first converted element that is not a dynamic
    placeholder; the declared wire type when there is none. *)
Definition adoptedType (declared : tftypes.Type_) (ws : list tftypes.Value)
    : tftypes.Type_ :=
  match find concrete ws with
  | Some w => tftypes.Type_of w
  | None => declared
  end.

(** A null or unknown dynamic placeholder takes the adopted type; every
    other value stays as it is. *)
Definition retyped (adopted : tftypes.Type_) (w : tftypes.Value) : tftypes.Value :=
  match w with
  | tftypes.mkValue tftypes.DynamicPseudoType tftypes.Nil =>
      tftypes.mkValue adopted tftypes.Nil
  | tftypes.mkValue tftypes.DynamicPseudoType tftypes.UnknownValue =>
      tftypes.mkValue adopted tftypes.UnknownValue
  | _ => w
  end.

(** Every element's conversion returns: [rs] are the values and errors
    returned, in order. *)
Definition returns (es : list (Value Other))
    (rs : list (tftypes.Value * option error)) : Prop :=
  Forall2 (fun e r => Value_ToTerraformValue C e = Ret r) es rs.

(** A conversion that returned an error. *)
Definition failed (r : tftypes.Value * option error) : bool :=
  negb (isNil (snd r)).

Lemma retype_retyped adopted w : retype adopted w = retyped adopted w.
Proof.
  destruct w as [t p]. unfold retype, retyped. simpl.
  destruct t; try reflexivity. destruct p; reflexivity.
Qed.

Lemma firstConcreteType_adopted es rs declared :
  returns es rs ->
  exists T,
    firstConcreteType (Value_ToTerraformValue C) es declared = Ret T
    /\ (find failed rs = None -> T = adoptedType declared (map fst rs)).
Proof.
  unfold adoptedType, concrete, failed.
  induction 1 as [|e [w err] es rs He _ IH]; simpl.
  - eexists. split; [reflexivity|]. reflexivity.
  - rewrite He. simpl. destruct err as [err|]; simpl.
    + destruct IH as (T & HT & _). exists T. split; [exact HT | discriminate].
    + destruct (negb (tftypes.Is_DynamicPseudoType (tftypes.Type_of w))).
      * eexists. split; [reflexivity|]. reflexivity.
      * exact IH.
Qed.

Lemma convertElements_result listType adopted es rs :
  returns es rs ->
  forall vals,
    convertElements (Value_ToTerraformValue C) listType adopted es vals
    = Ret (match find failed rs with
           | Some r => inl (tftypes.NewValue listType tftypes.UnknownValue, snd r)
           | None => inr (vals ++ map (retyped adopted) (map fst rs))
           end).
Proof.
  unfold failed.
  induction 1 as [|e [w err] es rs He _ IH]; intros vals; simpl.
  - now rewrite app_nil_r.
  - rewrite He. simpl. destruct err as [err|]; simpl; [reflexivity|].
    rewrite IH, retype_retyped.
    destruct (find _ rs); [reflexivity|]. now rewrite <- app_assoc.
Qed.

(** C4, amended.  On a known list value whose declared element type is
    the dynamic kind and whose elements' conversions return: when one of them
    returned an error, the first such error is returned; otherwise the
    elements are scanned in order, the type adopted is the type of the first
    converted element that is not a dynamic placeholder, the null and the
    unknown placeholders among the converted elements are re-typed to the
    adopted type, the other elements are kept, and the result is the wire
    list of these values, provided the validation accepts them.  The wire
    list itself keeps the wire type of the declared element type as its
    element type: the adopted type re-types elements, not the container. *)
Theorem ToTerraformValue_dynamic_elements
    (l : ListVal Other) (rs : list (tftypes.Value * option error)) :
  elementType l = Some attr.TDynamic ->
  state l = attr.ValueStateKnown ->
  returns (elements l) rs ->
  let listType := tftypes.List_ (TerraformType C attr.TDynamic) in
  let ws := map fst rs in
  let adopted := adoptedType (TerraformType C attr.TDynamic) ws in
  let vals := map (retyped adopted) ws in
  ListValue_ToTerraformValue C l
  = Ret (match find failed rs with
         | Some r => (tftypes.NewValue listType tftypes.UnknownValue, snd r)
         | None =>
             match ValidateValue C listType vals with
             | Some err => (tftypes.NewValue listType tftypes.UnknownValue, Some err)
             | None => (tftypes.NewValue listType (tftypes.Values vals), None)
             end
         end)
  /\ (forall w, find concrete ws = Some w -> adopted = tftypes.Type_of w)
  /\ (find concrete ws = None -> adopted = TerraformType C attr.TDynamic)
  /\ Forall2 (fun w v =>
                if concrete w then v = w
                else if tftypes.IsNull w
                     then v = tftypes.NewValue adopted tftypes.Nil
                     else if negb (tftypes.IsKnown w)
                          then v = tftypes.NewValue adopted tftypes.UnknownValue
                          else v = w) ws vals
  /\ (forall v err,
         ListValue_ToTerraformValue C l = Ret (v, err) ->
         tftypes.Type_of v = tftypes.List_ (TerraformType C attr.TDynamic)).
Proof.
  intros Et Est Hret listType ws adopted vals.
  assert (Heq : ListValue_ToTerraformValue C l
                = Ret (match find failed rs with
                       | Some r => (tftypes.NewValue listType tftypes.UnknownValue, snd r)
                       | None =>
                           match ValidateValue C listType vals with
                           | Some err =>
                               (tftypes.NewValue listType tftypes.UnknownValue, Some err)
                           | None =>
                               (tftypes.NewValue listType (tftypes.Values vals), None)
                           end
                       end)).
  { unfold ListValue_ToTerraformValue, ListValue_ToTerraformValue_with, ElementType.
    rewrite Et, Est. simpl.
    destruct (firstConcreteType_adopted (TerraformType C attr.TDynamic) Hret)
      as (T & -> & HT).
    simpl. rewrite (convertElements_result _ _ Hret). simpl.
    destruct (find failed rs) as [r|]; [reflexivity|].
    rewrite (HT eq_refl). fold ws adopted vals listType.
    destruct (ValidateValue C listType vals); reflexivity. }
  split; [exact Heq|]. split; [|split; [|split]].
  - intros w Hw. unfold adopted, adoptedType. now rewrite Hw.
  - intros Hw. unfold adopted, adoptedType. now rewrite Hw.
  - unfold vals. generalize adopted. clear. intros adopted.
    induction ws as [|w ws IH]; simpl; constructor; [|exact IH].
    destruct w as [t p]. unfold concrete, retyped. simpl.
    destruct t; simpl; try reflexivity. destruct p; reflexivity.
  - intros v err H. rewrite Heq in H.
    destruct (find failed rs) as [r|];
      [|destruct (ValidateValue C listType vals)];
      injection H as <- _; reflexivity.
Qed.

(** What the conversion of the zero value and of the three states comes
    to. *)
Lemma ToTerraformValue_states (l : ListVal Other) (t : attr.Type_) :
  elementType l = Some t ->
  (state l = attr.ValueStateNull ->
   ListValue_ToTerraformValue C l
   = Ret (tftypes.NewValue (tftypes.List_ (TerraformType C t)) tftypes.Nil, None))
  /\ (state l = attr.ValueStateUnknown ->
      ListValue_ToTerraformValue C l
      = Ret (tftypes.NewValue (tftypes.List_ (TerraformType C t))
               tftypes.UnknownValue, None)).
Proof.
  intros Et.
  unfold ListValue_ToTerraformValue, ListValue_ToTerraformValue_with, ElementType.
  rewrite Et. split; intros ->; reflexivity.
Qed.

(** C10.  The zero value of [ListValue] is in the null state: [IsNull] is
    true, [IsUnknown] is false, [Elements] is empty, the state is one of
    the three defined ones, and [ToTerraformValue] does not reach its
    unhandled-state panic on it (with no element type it stops at the
    nil element type before the switch; with one it takes the null
    branch). *)
Theorem zero_value_is_null :
  IsNull (zero Other) = true
  /\ IsUnknown (zero Other) = false
  /\ Elements (zero Other) = []
  /\ state (zero Other) = attr.ValueStateNull
  /\ (forall st, ListValue_ToTerraformValue C (zero Other)
                 <> Panic (unhandledState C st))
  /\ ListValue_ToTerraformValue C (zero Other) = Panic NilDereference
  /\ (forall t st,
         ListValue_ToTerraformValue C
           (mkListValue (elements (zero Other)) (Some t) (state (zero Other)))
         <> Panic (unhandledState C st))
  /\ (forall t,
         ListValue_ToTerraformValue C
           (mkListValue (elements (zero Other)) (Some t) (state (zero Other)))
         = Ret (tftypes.NewValue (tftypes.List_ (TerraformType C t)) tftypes.Nil,
                None)).
Proof.
  repeat split; try reflexivity; intros; discriminate.
Qed.

(** C6, amended.  [ElementsAs] takes one flag from its caller and hands
    it to the binding collaborator as both options: whenever the list
    converts, the collaborator is called with the list type, the wire
    value and options whose two fields are the caller's flag. *)
Theorem ElementsAs_one_flag
    (Into : attr.Type_ -> tftypes.Value -> reflect.Options -> diag.Diagnostics)
    (l : ListVal Other) (allowUnhandled : bool) (values : tftypes.Value) :
  ListValue_ToTerraformValue C l = Ret (values, None) ->
  ElementsAs C Into l allowUnhandled
  = Ret (Into (attr.TList (elementType l)) values
           (reflect.mkOptions allowUnhandled allowUnhandled))
  /\ reflect.UnhandledNullAsEmpty (reflect.mkOptions allowUnhandled allowUnhandled)
     = reflect.UnhandledUnknownAsEmpty
         (reflect.mkOptions allowUnhandled allowUnhandled).
Proof.
  intros H. unfold ElementsAs. rewrite H. split; reflexivity.
Qed.

End Wire.

End wire_facts.

(** ** Semantic equality of dynamic values *)
Module fwschemadata_facts.
Import fwschemadata.

Section Gate.
Variable Value : Type.
Variable DynamicSemanticEquals : Value -> option (Value -> bool * diag.Diagnostics).
Variable Value_String : Value -> string.

(** A value whose type has the semantic-equality method. *)
Definition implements (v : Value) : bool :=
  match DynamicSemanticEquals v with Some _ => true | None => false end.

(** C1, amended.  [ValueSemanticEqualityDynamic] does not look at the
    state of either value.  It calls the provider-defined
    [DynamicSemanticEquals], once, on the proposed new value with the
    prior value, exactly when both values have that method; then the
    returned diagnostics are appended and the new value becomes the prior
    value when the call says so, and is left alone otherwise.  When
    either value lacks the method nothing is called and the response is
    returned unchanged. *)
Theorem ValueSemanticEqualityDynamic_gate
    (req : ValueSemanticEqualityRequest Value)
    (resp : ValueSemanticEqualityResponse Value) :
  let out := ValueSemanticEqualityDynamic DynamicSemanticEquals Value_String req resp in
  called (snd out)
  = implements (PriorValue req) && implements (ProposedNewValue req)
  /\ match DynamicSemanticEquals (PriorValue req),
           DynamicSemanticEquals (ProposedNewValue req) with
     | Some _, Some semanticEquals =>
         filter (@isCall Value) (snd out)
         = [CallDynamicSemanticEquals (ProposedNewValue req) (PriorValue req)]
         /\ Diagnostics (fst out)
            = diag.Append (Diagnostics resp) (snd (semanticEquals (PriorValue req)))
         /\ NewValue (fst out)
            = if fst (semanticEquals (PriorValue req))
              then PriorValue req else NewValue resp
     | _, _ => out = (resp, [])
     end.
Proof.
  unfold ValueSemanticEqualityDynamic, implements, called. simpl.
  destruct (DynamicSemanticEquals (PriorValue req)) as [f|];
    [|split; reflexivity].
  destruct (DynamicSemanticEquals (ProposedNewValue req)) as [g|];
    [|split; reflexivity].
  destruct (g (PriorValue req)) as [[|] ds]; simpl; repeat split.
Qed.

End Gate.

End fwschemadata_facts.

(** ** The nested-dynamic validation *)
Module schema_facts.
Import schema.

(** A type that is dynamic or holds a dynamic type at any depth, through
    the element type of a list, set or map, an element type of a tuple or
    an attribute type of an object. *)
Inductive holdsDynamic : attr.Type_ -> Prop :=
| hd_dynamic : holdsDynamic attr.TDynamic
| hd_list e : holdsDynamic e -> holdsDynamic (attr.TList (Some e))
| hd_set e : holdsDynamic e -> holdsDynamic (attr.TSet (Some e))
| hd_map e : holdsDynamic e -> holdsDynamic (attr.TMap (Some e))
| hd_tuple ts t : In t ts -> holdsDynamic t -> holdsDynamic (attr.TTuple ts)
| hd_object ats kt :
    In kt ats -> holdsDynamic (snd kt) -> holdsDynamic (attr.TObject ats).

Section Check.
Variable Path : Type.
Variable CollectionWithDynamicTypeDiag : Path -> diag.Diagnostic.

Let check := checkAttrType CollectionWithDynamicTypeDiag.

Lemma check_tuple (p : Path) (ts : list attr.Type_) :
  check p (attr.TTuple ts)
  = match find (fun t => match check p t with Some _ => true | None => false end) ts with
    | Some t => check p t
    | None => None
    end.
Proof.
  unfold check. simpl.
  induction ts as [|t ts IH]; simpl; [reflexivity|].
  destruct (checkAttrType CollectionWithDynamicTypeDiag p t) eqn:E; simpl;
    [rewrite ?E; reflexivity | exact IH].
Qed.

Lemma check_object (p : Path) (ats : list (string * attr.Type_)) :
  check p (attr.TObject ats)
  = match find (fun kt => match check p (snd kt) with
                          | Some _ => true | None => false end) ats with
    | Some kt => check p (snd kt)
    | None => None
    end.
Proof.
  unfold check. simpl.
  induction ats as [|[k t] ats IH]; simpl; [reflexivity|].
  destruct (checkAttrType CollectionWithDynamicTypeDiag p t) eqn:E; simpl;
    [rewrite ?E; reflexivity | exact IH].
Qed.

Lemma check_sound (p : Path) (t : attr.Type_) :
  (forall d, check p t = Some d ->
             d = CollectionWithDynamicTypeDiag p /\ holdsDynamic t)
  /\ (check p t = None -> ~ holdsDynamic t).
Proof.
  induction t as [q| |e IH|e IH|e IH|ts IH|ats IH] using attr.Type_nested_ind.
  - split; [discriminate|]. intros _ H; inversion H.
  - split.
    + intros d H. injection H as <-. split; [reflexivity | constructor].
    + discriminate.
  - destruct e as [e|]; simpl in *.
    + destruct IH as [IH1 IH2]. split.
      * intros d H. destruct (IH1 d H). split; [assumption | now constructor].
      * intros H Hd. inversion Hd; subst. now apply IH2.
    + split; [discriminate|]. intros _ H; inversion H.
  - destruct e as [e|]; simpl in *.
    + destruct IH as [IH1 IH2]. split.
      * intros d H. destruct (IH1 d H). split; [assumption | now constructor].
      * intros H Hd. inversion Hd; subst. now apply IH2.
    + split; [discriminate|]. intros _ H; inversion H.
  - destruct e as [e|]; simpl in *.
    + destruct IH as [IH1 IH2]. split.
      * intros d H. destruct (IH1 d H). split; [assumption | now constructor].
      * intros H Hd. inversion Hd; subst. now apply IH2.
    + split; [discriminate|]. intros _ H; inversion H.
  - rewrite check_tuple. rewrite Forall_forall in IH. split.
    + intros d H.
      destruct (find _ ts) as [t|] eqn:F; [|discriminate].
      apply find_some in F as [Hin _].
      destruct (IH t Hin) as [IH1 _]. destruct (IH1 d H).
      split; [assumption | now apply hd_tuple with t].
    + intros H Hd. inversion Hd as [| | | |ts' t Hin Ht|]; subst.
      destruct (IH t Hin) as [IH1 IH2].
      destruct (find _ ts) as [u|] eqn:F.
      * apply find_some in F as [_ Hu]. now rewrite H in Hu.
      * pose proof (find_none _ _ F t Hin) as Hn. simpl in Hn.
        destruct (check p t) eqn:E; [discriminate|]. now apply IH2.
  - rewrite check_object. rewrite Forall_forall in IH. split.
    + intros d H.
      destruct (find _ ats) as [kt|] eqn:F; [|discriminate].
      apply find_some in F as [Hin _].
      destruct (IH kt Hin) as [IH1 _]. destruct (IH1 d H).
      split; [assumption | now apply hd_object with kt].
    + intros H Hd. inversion Hd as [| | | | |ats' kt Hin Ht]; subst.
      destruct (IH kt Hin) as [IH1 IH2].
      destruct (find _ ats) as [u|] eqn:F.
      * apply find_some in F as [_ Hu]. now rewrite H in Hu.
      * pose proof (find_none _ _ F kt Hin) as Hn. simpl in Hn.
        destruct (check p (snd kt)) eqn:E; [discriminate|]. now apply IH2.
Qed.

(** C8.  [checkAttrTypeForDynamics] is a function of the path and the
    type alone, defined by recursion on the type.  It returns a
    diagnostic, the one of the path, exactly when the type is dynamic or
    holds a dynamic type at some depth through list, set or map element
    types, tuple element types or object attribute types, and returns
    none otherwise, a nil type included.  On a tuple or an object it
    returns what the first element or attribute with a violation
    returns, whatever comes after it. *)
Theorem checkAttrTypeForDynamics_exact (p : Path) :
  (forall t : attr.Type_,
      (checkAttrTypeForDynamics CollectionWithDynamicTypeDiag p (Some t)
       = Some (CollectionWithDynamicTypeDiag p) <-> holdsDynamic t)
      /\ (checkAttrTypeForDynamics CollectionWithDynamicTypeDiag p (Some t)
          = None <-> ~ holdsDynamic t))
  /\ checkAttrTypeForDynamics CollectionWithDynamicTypeDiag p None = None
  /\ (forall (pre post : list attr.Type_) (t : attr.Type_) (d : diag.Diagnostic),
         Forall (fun u => checkAttrTypeForDynamics CollectionWithDynamicTypeDiag
                            p (Some u) = None) pre ->
         checkAttrTypeForDynamics CollectionWithDynamicTypeDiag p (Some t) = Some d ->
         checkAttrTypeForDynamics CollectionWithDynamicTypeDiag p
           (Some (attr.TTuple (pre ++ t :: post))) = Some d)
  /\ (forall (pre post : list (string * attr.Type_)) (k : string)
             (t : attr.Type_) (d : diag.Diagnostic),
         Forall (fun ku => checkAttrTypeForDynamics CollectionWithDynamicTypeDiag
                             p (Some (snd ku)) = None) pre ->
         checkAttrTypeForDynamics CollectionWithDynamicTypeDiag p (Some t) = Some d ->
         checkAttrTypeForDynamics CollectionWithDynamicTypeDiag p
           (Some (attr.TObject (pre ++ (k, t) :: post))) = Some d).
Proof.
  assert (Hdec : forall t,
             (check p t = Some (CollectionWithDynamicTypeDiag p) <-> holdsDynamic t)
             /\ (check p t = None <-> ~ holdsDynamic t)).
  { intros t. destruct (check_sound p t) as [H1 H2].
    destruct (check p t) as [d|] eqn:E.
    - destruct (H1 d eq_refl) as [-> Hd]. split; split; auto; try discriminate.
      intros Hn. contradiction.
    - split; split; auto; try discriminate.
      intros Hd. exfalso. now apply H2. }
  split; [exact Hdec|]. split; [reflexivity|]. split.
  - intros pre post t d Hpre Ht. simpl in *.
    induction Hpre as [|u pre Hu _ IH]; simpl.
    + now rewrite Ht.
    + rewrite Hu. exact IH.
  - intros pre post k t d Hpre Ht. simpl in *.
    induction Hpre as [|[k' u] pre Hu _ IH]; simpl.
    + now rewrite Ht.
    + simpl in Hu. rewrite Hu. exact IH.
Qed.

End Check.

End schema_facts.

(** ** The copy made by Elements *)
Module slices_facts.
Import slices.

Section Frame.
Variable A : Type.
Variable zeroValue : A.

Lemma setArray_length a f (h : store A) :
  List.length (setArray a f h) = List.length h.
Proof.
  revert a. induction h as [|arr h IH]; intros [|a]; simpl; auto.
Qed.

Lemma setArray_other a b f (h : store A) :
  a <> b -> arrayAt (setArray a f h) b = arrayAt h b.
Proof.
  unfold arrayAt. revert a b.
  induction h as [|arr h IH]; intros [|a] [|b] Hab; simpl; auto;
    try congruence.
Qed.

Lemma setArray_same a f (h : store A) :
  a < List.length h -> arrayAt (setArray a f h) a = f (arrayAt h a).
Proof.
  unfold arrayAt. revert a.
  induction h as [|arr h IH]; intros [|a] Ha; simpl in *; try lia; auto.
  apply IH. lia.
Qed.

Lemma setArray_app_last f (h : store A) arr :
  setArray (List.length h) f (h ++ [arr]) = h ++ [f arr].
Proof. induction h as [|x h IH]; simpl; [reflexivity | now rewrite IH]. Qed.

Lemma arrayAt_app_old (h more : store A) a :
  a < List.length h -> arrayAt (h ++ more) a = arrayAt h a.
Proof. intros Ha. unfold arrayAt. now apply app_nth1. Qed.

Lemma arrayAt_app_new (h : store A) arr :
  arrayAt (h ++ [arr]) (List.length h) = arr.
Proof.
  unfold arrayAt. rewrite app_nth2 by lia. now rewrite Nat.sub_diag.
Qed.

(** Whatever is done through a slice leaves the other arrays of the
    store as they are. *)
Lemma mutate_frame (ms : list (mutation A)) :
  forall h s h' s',
    mutate h s ms = Ret (h', s') ->
    forall a, a < List.length h -> a <> array s ->
      arrayAt h' a = arrayAt h a.
Proof.
  induction ms as [|[i x|xs] ms IH]; intros h s h' s' Hrun a Ha Hne;
    simpl in Hrun.
  - now injection Hrun as <- <-.
  - unfold assign in Hrun.
    destruct (Nat.ltb i (len s)); simpl in Hrun; [|discriminate].
    rewrite (IH _ _ _ _ Hrun a).
    + apply setArray_other. congruence.
    + now rewrite setArray_length.
    + assumption.
  - unfold append in Hrun.
    destruct (Nat.leb (len s + List.length xs) (cap s)).
    + rewrite (IH _ _ _ _ Hrun a).
      * apply setArray_other. congruence.
      * now rewrite setArray_length.
      * assumption.
    + rewrite (IH _ _ _ _ Hrun a).
      * now apply arrayAt_app_old.
      * rewrite length_app. simpl. lia.
      * simpl. lia.
Qed.

Lemma load_frame (h h' : store A) (s : slice) :
  arrayAt h' (array s) = arrayAt h (array s) -> load h' s = load h s.
Proof. unfold load. now intros ->. Qed.

Lemma load_length (h : store A) s : List.length (load h s) <= len s.
Proof. unfold load. rewrite length_firstn. lia. Qed.

(** [Elements] allocates one array at the end of the store, fills it
    with the elements the source shows and touches nothing else. *)
Lemma Elements_spec (h : store A) (l : ListValueRef) :
  inStore h (elements l) ->
  exists contents,
    Elements zeroValue h l
    = (h ++ [contents],
       mkSlice (List.length h) 0 (List.length (load h (elements l)))
         (len (elements l)))
    /\ firstn (List.length (load h (elements l))) contents
       = load h (elements l).
Proof.
  intros Hin. unfold Elements, make, append. simpl.
  assert (Hload : load (h ++ [repeat zeroValue (len (elements l))]) (elements l)
                  = load h (elements l)).
  { apply load_frame. now apply arrayAt_app_old. }
  rewrite Hload.
  pose proof (load_length h (elements l)) as Hlen.
  destruct (Nat.leb (List.length (load h (elements l))) (len (elements l))) eqn:E.
  2:{ apply Nat.leb_gt in E. lia. }
  rewrite setArray_app_last.
  eexists. split; [reflexivity|].
  - unfold writeFrom. simpl. rewrite firstn_app, Nat.sub_diag. simpl.
    now rewrite firstn_all, app_nil_r.
Qed.

End Frame.

Section DefensiveCopy.
Variable Other : Type.
Variable C : basetypes.Collaborators Other.

(** A cell of a slice of [attr.Value] holds a value or the nil
    interface.  The elements a slice of cells shows, when none of them
    is nil: *)
Definition reify (cells : list (option (basetypes.Value Other)))
    : option (list (basetypes.Value Other)) :=
  fold_right
    (fun c acc =>
       match c, acc with
       | Some v, Some vs => Some (v :: vs)
       | _, _ => None
       end) (Some []) cells.

(** The list value a [ListValueRef] stands for in a store. *)
Definition snapshot (h : store (option (basetypes.Value Other)))
    (l : ListValueRef) : option (basetypes.ListVal Other) :=
  option_map
    (fun es => basetypes.mkListValue es (elementType l) (state l))
    (reify (load h (elements l))).

(** The store [h'] shows of [l] what [h] shows: the same elements, hence
    the same list value and the same results of [Equal], [String] and
    [ToTerraformValue]. *)
Definition sameSource (h h' : store (option (basetypes.Value Other)))
    (l : ListValueRef) : Prop :=
  load h' (elements l) = load h (elements l)
  /\ snapshot h' l = snapshot h l
  /\ (forall o, option_map (fun v => basetypes.ListValue_Equal C v o) (snapshot h' l)
                = option_map (fun v => basetypes.ListValue_Equal C v o) (snapshot h l))
  /\ option_map (basetypes.ListValue_String C) (snapshot h' l)
     = option_map (basetypes.ListValue_String C) (snapshot h l)
  /\ option_map (basetypes.ListValue_ToTerraformValue C) (snapshot h' l)
     = option_map (basetypes.ListValue_ToTerraformValue C) (snapshot h l).

Lemma sameSource_of_load h h' l :
  load h' (elements l) = load h (elements l) -> sameSource h h' l.
Proof.
  intros H. unfold sameSource, snapshot. rewrite H. repeat split.
Qed.

(** C9.  Two successive calls of [Elements] on one list value return
    slices on two fresh arrays, each showing the elements of the source.
    Whatever a caller then does through one of them, assignments and
    appends, the source shows the same elements as before, so [Equal],
    [String] and [ToTerraformValue] of the source are unchanged, and the
    other returned slice shows what it showed. *)
Theorem Elements_defensive_copy
    (h h1 h2 : store (option (basetypes.Value Other)))
    (l : ListValueRef) (r1 r2 : slice) :
  inStore h (elements l) ->
  Elements None h l = (h1, r1) ->
  Elements None h1 l = (h2, r2) ->
  load h1 r1 = load h (elements l)
  /\ load h2 r2 = load h (elements l)
  /\ load h2 r1 = load h (elements l)
  /\ sameSource h h2 l
  /\ array r1 <> array r2
  /\ array r1 <> array (elements l)
  /\ array r2 <> array (elements l)
  /\ (forall ms h3 r1',
         mutate h2 r1 ms = Ret (h3, r1') ->
         sameSource h h3 l /\ load h3 r2 = load h2 r2)
  /\ (forall ms h3 r2',
         mutate h2 r2 ms = Ret (h3, r2') ->
         sameSource h h3 l /\ load h3 r1 = load h2 r1).
Proof.
  intros Hin E1 E2. unfold inStore in Hin.
  destruct (@Elements_spec _ None h l Hin) as (c1 & F1 & G1).
  rewrite E1 in F1. injection F1 as -> ->.
  assert (Hin1 : inStore (h ++ [c1]) (elements l)).
  { unfold inStore. rewrite length_app. simpl. lia. }
  assert (L1 : load (h ++ [c1]) (elements l) = load h (elements l)).
  { apply load_frame. now apply arrayAt_app_old. }
  destruct (@Elements_spec _ None (h ++ [c1]) l Hin1) as (c2 & F2 & G2).
  rewrite E2 in F2. injection F2 as -> ->.
  rewrite L1 in G2 |- *.
  set (n := List.length (load h (elements l))) in *.
  assert (Hlen1 : List.length (h ++ [c1]) = S (List.length h))
    by (rewrite length_app; simpl; lia).
  assert (Hlen2 : List.length ((h ++ [c1]) ++ [c2]) = S (S (List.length h)))
    by (rewrite length_app, Hlen1; simpl; lia).
  assert (R1 : load (h ++ [c1]) (mkSlice (List.length h) 0 n (len (elements l)))
               = load h (elements l)).
  { unfold load. simpl. now rewrite arrayAt_app_new. }
  assert (R2 : load ((h ++ [c1]) ++ [c2])
                 (mkSlice (List.length (h ++ [c1])) 0 n (len (elements l)))
               = load h (elements l)).
  { unfold load. simpl. now rewrite arrayAt_app_new. }
  assert (R12 : load ((h ++ [c1]) ++ [c2])
                  (mkSlice (List.length h) 0 n (len (elements l)))
                = load h (elements l)).
  { rewrite <- R1. apply load_frame. simpl. apply arrayAt_app_old. lia. }
  assert (L2 : load ((h ++ [c1]) ++ [c2]) (elements l) = load h (elements l)).
  { rewrite <- L1. apply load_frame. apply arrayAt_app_old. lia. }
  repeat match goal with |- _ /\ _ => split end; auto.
  - now apply sameSource_of_load.
  - simpl. lia.
  - simpl. lia.
  - simpl. lia.
  - intros ms h3 r1' Hrun. split.
    + apply sameSource_of_load. rewrite <- L2. apply load_frame.
      eapply mutate_frame; [exact Hrun | simpl; lia | simpl; lia].
    + apply load_frame. eapply mutate_frame; [exact Hrun | simpl; lia | simpl; lia].
  - intros ms h3 r2' Hrun. split.
    + apply sameSource_of_load. rewrite <- L2. apply load_frame.
      eapply mutate_frame; [exact Hrun | simpl; lia | simpl; lia].
    + apply load_frame. eapply mutate_frame; [exact Hrun | simpl; lia | simpl; lia].
Qed.

End DefensiveCopy.

End slices_facts.

(** ** The functions on concrete values *)
Module examples.
Import basetypes testtypes.

Lemma Base_eqb_refl : forall v, Base_eqb v v = true.
Proof.
  fix IH 1. intros [st s|st n|st x|st x b ds]; simpl; rewrite N.eqb_refl; simpl.
  - rewrite String.eqb_refl. apply orb_true_r.
  - rewrite N.eqb_refl. apply orb_true_r.
  - destruct x as [u|]; [rewrite IH|]; apply orb_true_r.
  - destruct x as [u|]; [rewrite IH|]; apply orb_true_r.
Qed.

Lemma Base_eqb_sym : forall v o, Base_eqb v o = Base_eqb o v.
Proof.
  fix IH 1.
  intros [st s|st n|st x|st x b ds] [st' s'|st' n'|st' x'|st' x' b' ds'];
    simpl; try reflexivity;
    (destruct (N.eqb_spec st st') as [<-|Hne];
     [rewrite N.eqb_refl
     |rewrite (proj2 (N.eqb_neq st' st)) by congruence; reflexivity]);
    simpl; f_equal.
  - apply String.eqb_sym.
  - apply N.eqb_sym.
  - destruct x as [u|], x' as [u'|]; auto.
  - destruct x as [u|], x' as [u'|]; auto.
Qed.

Lemma Base_Equal_refl : forall o, other_Equal collaborators o (VOther o) = true.
Proof. exact Base_eqb_refl. Qed.

Lemma Base_Equal_sym :
  forall o o', other_Equal collaborators o (VOther o')
               = other_Equal collaborators o' (VOther o).
Proof. exact Base_eqb_sym. Qed.

Lemma Base_Equal_list :
  forall o (l : ListVal Base), other_Equal collaborators o (VList l) = false.
Proof. reflexivity. Qed.


(** The dynamic element resolution on [unknown-dynamic, known-string x]:
    both elements of the wire list are of wire type string. *)
Lemma ToTerraformValue_dynamic_elements_witness :
  (elementType dynamicList = Some attr.TDynamic
   /\ state dynamicList = attr.ValueStateKnown
   /\ wire_facts.returns collaborators (elements dynamicList)
        [(tftypes.NewValue tftypes.DynamicPseudoType tftypes.UnknownValue, None);
         (tftypes.NewValue tftypes.String_ (tftypes.Str "x"), None)])
  /\ ListValue_ToTerraformValue collaborators dynamicList
     = Ret (tftypes.NewValue (tftypes.List_ tftypes.DynamicPseudoType)
              (tftypes.Values
                 [tftypes.NewValue tftypes.String_ tftypes.UnknownValue;
                  tftypes.NewValue tftypes.String_ (tftypes.Str "x")]),
            None).
Proof.
  assert (H : wire_facts.returns collaborators (elements dynamicList)
                [(tftypes.NewValue tftypes.DynamicPseudoType tftypes.UnknownValue, None);
                 (tftypes.NewValue tftypes.String_ (tftypes.Str "x"), None)]).
  { repeat constructor. }
  split; [repeat split; exact H|].
  exact (proj1 (@wire_facts.ToTerraformValue_dynamic_elements _ collaborators
                  dynamicList _ eq_refl eq_refl H)).
Defined.

(** Reflexivity and symmetry on two known lists of strings. *)
Lemma ListValue_Equal_refl_sym_witness :
  (basetypes_facts.hasElementTypes (VList stringsAB) = true
   /\ basetypes_facts.hasElementTypes (VList stringsAC) = true)
  /\ ListValue_Equal collaborators stringsAB (VList stringsAB) = Ret true
  /\ exists r, ListValue_Equal collaborators stringsAB (VList stringsAC) = Ret r
               /\ ListValue_Equal collaborators stringsAC (VList stringsAB) = Ret r.
Proof.
  pose proof (@basetypes_facts.ListValue_Equal_refl_sym _ collaborators
                Base_Equal_refl Base_Equal_sym Base_Equal_list) as [Hrefl Hsym].
  split; [split; reflexivity|]. split.
  - apply Hrefl. reflexivity.
  - apply Hsym; reflexivity.
Defined.

(** One flag, two options: on the null list of strings. *)
Lemma ElementsAs_one_flag_witness :
  ListValue_ToTerraformValue collaborators nullStrings
  = Ret (tftypes.NewValue (tftypes.List_ tftypes.String_) tftypes.Nil, None)
  /\ ElementsAs collaborators reportOptions nullStrings true
     = Ret (reportOptions (attr.TList (Some StringType))
              (tftypes.NewValue (tftypes.List_ tftypes.String_) tftypes.Nil)
              (reflect.mkOptions true true)).
Proof.
  split; [reflexivity|].
  exact (proj1 (@wire_facts.ElementsAs_one_flag _ collaborators reportOptions
                  nullStrings true _ eq_refl)).
Defined.

(** Two calls of [Elements] on a two-element list in a store. *)
Lemma Elements_defensive_copy_witness :
  slices.inStore store0 (slices.elements listRef)
  /\ slices.load (fst (slices.Elements None (fst (slices.Elements None store0 listRef)) listRef))
       (snd (slices.Elements None (fst (slices.Elements None store0 listRef)) listRef))
     = slices.load store0 (slices.elements listRef)
  /\ (forall ms h3 r1',
         slices.mutate
           (fst (slices.Elements None (fst (slices.Elements None store0 listRef)) listRef))
           (snd (slices.Elements None store0 listRef)) ms = Ret (h3, r1') ->
         slices.load h3 (slices.elements listRef)
         = slices.load store0 (slices.elements listRef)).
Proof.
  assert (Hin : slices.inStore store0 (slices.elements listRef)).
  { unfold slices.inStore. simpl. lia. }
  split; [exact Hin|].
  destruct (@slices_facts.Elements_defensive_copy _ collaborators
              store0 _ _ listRef _ _ Hin
              (surjective_pairing (slices.Elements None store0 listRef))
              (surjective_pairing
                 (slices.Elements None
                    (fst (slices.Elements None store0 listRef)) listRef)))
    as (_ & H2 & _ & _ & _ & _ & _ & Hmut & _).
  split; [exact H2|].
  intros ms h3 r1' Hrun. exact (proj1 (proj1 (Hmut ms h3 r1' Hrun))).
Defined.

(** C1, as stated, fails: the prior value is null, both values are of a
    type with semantic equality, and the function calls the provider's
    method and replaces the new value by the null prior value. *)
Lemma ValueSemanticEqualityDynamic_calls_on_null :
  Base_IsNull (fwschemadata.PriorValue request) = true
  /\ fwschemadata.called
       (snd (fwschemadata.ValueSemanticEqualityDynamic
               Base_DynamicSemanticEquals Base_String request response)) = true
  /\ fwschemadata.NewValue
       (fst (fwschemadata.ValueSemanticEqualityDynamic
               Base_DynamicSemanticEquals Base_String request response))
     = nullPrior
  /\ fst (fwschemadata.ValueSemanticEqualityDynamic
            Base_DynamicSemanticEquals Base_String request response)
     <> response.
Proof. repeat split. discriminate. Qed.

(** C5, as stated, fails on the zero value: [Equal] of the zero value with
    itself panics on the nil element type, and against a null list of
    strings it panics one way and returns false the other way. *)
Lemma ListValue_Equal_zero_panics :
  ListValue_Equal collaborators (zero Base) (VList (zero Base))
  = Panic NilDereference
  /\ ListValue_Equal collaborators (zero Base) (VList (zero Base)) <> Ret true
  /\ ListValue_Equal collaborators (zero Base) (VList nullStrings)
     = Panic NilDereference
  /\ ListValue_Equal collaborators nullStrings (VList (zero Base)) = Ret false.
Proof. repeat split. discriminate. Qed.

(** C6, as stated, fails: no argument of [ElementsAs] makes the
    collaborator treat an unhandled null as empty and an unhandled unknown
    as an error. *)
Lemma ElementsAs_flags_not_independent :
  ~ exists allowUnhandled,
      ElementsAs collaborators reportOptions nullStrings allowUnhandled
      = Ret (reportOptions (attr.TList (Some StringType))
               (tftypes.NewValue (tftypes.List_ tftypes.String_) tftypes.Nil)
               (reflect.mkOptions true false)).
Proof. intros [[|] H]; discriminate. Qed.


(** C4, as stated, fails on [unknown-dynamic, known-string x]: the type
    adopted from the elements is string, and the wire list that is returned
    is of type list of dynamic placeholder, not list of string. *)
Lemma ToTerraformValue_list_type_not_adopted :
  exists v,
    ListValue_ToTerraformValue collaborators dynamicList = Ret (v, None)
    /\ wire_facts.adoptedType tftypes.DynamicPseudoType
         [tftypes.NewValue tftypes.DynamicPseudoType tftypes.UnknownValue;
          tftypes.NewValue tftypes.String_ (tftypes.Str "x")]
       = tftypes.String_
    /\ tftypes.Type_of v = tftypes.List_ tftypes.DynamicPseudoType
    /\ tftypes.Type_of v <> tftypes.List_ tftypes.String_.
Proof.
  eexists. split; [reflexivity|]. split; [reflexivity|].
  split; [reflexivity | discriminate].
Qed.

End examples.


(** * Further properties *)

(** ** Construction *)
Module construction_more.
Import basetypes.

Section Construction.
Variable Other : Type.
Variable C : Collaborators Other.

(** The element [e] is of the declared element type. *)
Definition typedAs (ety : option attr.Type_) (e : Value Other) : Prop :=
  exists t, ety = Some t /\ attr.Type_Equal t (Some (Value_Type C e)) = true.

Lemma mismatches_nil_iff t es :
  forall idx,
    construction_facts.mismatches C t idx es = []
    <-> Forall (typedAs (Some t)) es.
Proof.
  induction es as [|e es IH]; intros idx; simpl.
  - split; [constructor | reflexivity].
  - unfold construction_facts.mismatch at 1.
    destruct (attr.Type_Equal t (Some (Value_Type C e))) eqn:E; simpl.
    + rewrite IH. split.
      * intros H. constructor; [exists t; auto | exact H].
      * intros H. now inversion H.
    + split; [discriminate|]. intros H. inversion H as [|? ? (t' & Ht' & Heq) _].
      injection Ht' as <-. congruence.
Qed.

Lemma HasError_false_errors (ds : diag.Diagnostics) :
  forallb diag.isError ds = true -> diag.HasError ds = false -> ds = [].
Proof.
  destruct ds as [|d ds]; [reflexivity|]. simpl.
  intros H. apply andb_true_iff in H as [-> _]. discriminate.
Qed.

Lemma checkElements_nil_type (elements : list (option (Value Other))) :
  forall idx diags,
    checkElements C None idx elements diags
    = match elements with [] => Ret diags | _ :: _ => Panic NilDereference end.
Proof. destruct elements as [|[e|] elements]; reflexivity. Qed.

(** X1.  When every element is of the declared element type,
    [NewListValue] returns the known list of exactly these elements, in
    order, and no diagnostics. *)
Theorem NewListValue_well_typed (t : attr.Type_) (es : list (Value Other)) :
  Forall (fun e => attr.Type_Equal t (Some (Value_Type C e)) = true) es ->
  NewListValue C (Some t) (map Some es)
  = Ret (mkListValue es (Some t) attr.ValueStateKnown, []).
Proof.
  intros H. unfold NewListValue.
  rewrite construction_facts.checkElements_mismatches. simpl.
  replace (construction_facts.mismatches C t 0 es) with (@nil diag.Diagnostic).
  - simpl. now rewrite construction_facts.present_map_Some.
  - symmetry. apply mismatches_nil_iff.
    eapply Forall_impl; [|exact H]. intros e He. exists t. auto.
Qed.

(** X2.  Whatever [NewListValue] returns, the elements it was given were
    values, none of them nil, and the result is one of two things.  Either
    it is the list with these elements, the declared element type and the
    known state, with no diagnostics at all, and then every element is of the
    declared element type.  Or it is the list with no elements, the declared
    element type and the unknown state, with error diagnostics, and then
    some element is not of the declared element type.  So a known list never
    comes with a diagnostic, and the type of the result is the list type of
    the declared element type either way. *)
Theorem NewListValue_outcomes
    (ety : option attr.Type_) (elements : list (option (Value Other)))
    (l : ListVal Other) (diags : diag.Diagnostics) :
  NewListValue C ety elements = Ret (l, diags) ->
  exists es,
    elements = map Some es
    /\ ((l = mkListValue es ety attr.ValueStateKnown
         /\ diags = []
         /\ Forall (typedAs ety) es)
        \/ (l = mkListValue [] ety attr.ValueStateUnknown
            /\ diag.HasError diags = true
            /\ ~ Forall (typedAs ety) es))
    /\ (state l = attr.ValueStateKnown -> diags = [])
    /\ ListValue_Type l = attr.TList ety.
Proof.
  unfold NewListValue. intros H.
  apply bind_Ret_inv in H as (ds & Hds & H).
  pose proof (@construction_facts.checkElements_returns _ C _ elements 0 [] ds Hds)
      as Hes.
  exists (present elements). split; [exact Hes|].
  rewrite Hes in Hds.
  destruct ety as [t|].
  - rewrite construction_facts.checkElements_mismatches in Hds.
    injection Hds as <-. simpl in H.
    destruct (diag.HasError (construction_facts.mismatches C t 0 (present elements)))
      eqn:E; injection H as <- <-.
    + split; [|split; [discriminate | reflexivity]].
      right. repeat split; auto. intros Hall.
      apply mismatches_nil_iff with (idx := 0) in Hall.
      rewrite Hall in E. discriminate.
    + split; [|split; reflexivity].
      left. repeat split; auto. apply mismatches_nil_iff with (idx := 0).
      apply HasError_false_errors; [apply construction_facts.mismatches_isError|].
      exact E.
  - rewrite checkElements_nil_type in Hds.
    destruct (present elements) as [|e es]; [|discriminate].
    simpl in Hds. injection Hds as <-. simpl in H. injection H as <- <-.
    split; [|split; reflexivity].
    left. repeat split; constructor.
Qed.

(** X3.  [NewListValue] with the nil element type returns the known
    empty list when it is given no element, and panics on the nil element
    type as soon as it is given one.  Whatever the element type, it panics
    when a nil interface is among the elements.  [NewListValueMust] panics
    in the same cases. *)
Theorem NewListValue_nil_element_type :
  NewListValue C None []
  = Ret (mkListValue [] None attr.ValueStateKnown, [])
  /\ (forall (e : option (Value Other)) (elements : list (option (Value Other))),
         NewListValue C None (e :: elements) = Panic NilDereference
         /\ NewListValueMust C None (e :: elements) = Panic NilDereference)
  /\ (forall (ety : option attr.Type_) (elements : list (option (Value Other))),
         In None elements ->
         NewListValue C ety elements = Panic NilDereference
         /\ NewListValueMust C ety elements = Panic NilDereference).
Proof.
  split; [reflexivity|]. split.
  - intros e elements. unfold NewListValueMust, NewListValue.
    rewrite checkElements_nil_type. split; reflexivity.
  - intros ety elements Hin. unfold NewListValueMust, NewListValue.
    rewrite (@construction_facts.checkElements_nil_element _ C ety elements Hin).
    split; reflexivity.
Qed.

(** X4.  [NewListValueMust] with an element type returns a value exactly
    when every element is a value of that type, and the value is then the
    known list of these elements; otherwise it panics. *)
Theorem NewListValueMust_returns_iff
    (t : attr.Type_) (elements : list (option (Value Other))) (l : ListVal Other) :
  NewListValueMust C (Some t) elements = Ret l
  <-> exists es,
        elements = map Some es
        /\ Forall (typedAs (Some t)) es
        /\ l = mkListValue es (Some t) attr.ValueStateKnown.
Proof.
  split.
  - unfold NewListValueMust, NewListValue. intros H.
    apply bind_Ret_inv in H as ([l' ds'] & H & Hmust).
    apply bind_Ret_inv in H as (ds & Hds & H).
    pose proof (@construction_facts.checkElements_returns _ C _ elements 0 [] ds Hds)
      as Hes.
    exists (present elements). split; [exact Hes|].
    rewrite Hes in Hds.
    rewrite construction_facts.checkElements_mismatches in Hds.
    injection Hds as <-. simpl in H.
    destruct (diag.HasError (construction_facts.mismatches C t 0 (present elements)))
      eqn:E; injection H as <- <-.
    + rewrite E in Hmust. discriminate.
    + simpl in Hmust. injection Hmust as <-. split; [|reflexivity].
      apply mismatches_nil_iff with (idx := 0).
      apply HasError_false_errors;
        [apply construction_facts.mismatches_isError | exact E].
  - intros (es & -> & Hall & ->).
    unfold NewListValueMust, NewListValue.
    rewrite construction_facts.checkElements_mismatches. simpl.
    apply mismatches_nil_iff with (idx := 0) in Hall. rewrite Hall. simpl.
    now rewrite construction_facts.present_map_Some.
Qed.

End Construction.

End construction_more.

(** ** Conversion to the wire form *)
Module wire_more.
Import basetypes.

Section Wire.
Variable Other : Type.
Variable C : Collaborators Other.

Lemma endsWith_after (p s e : string) :
  (exists pre, s = pre +++ e) -> exists pre, p +++ s = pre +++ e.
Proof.
  intros [pre ->]. exists (p +++ pre). now rewrite append_assoc.
Qed.

Lemma convertElements_shape
    (toTf : Value Other -> outcome (tftypes.Value * option error))
    (listType adopted : tftypes.Type_) (es : list (Value Other)) :
  forall vals r,
    convertElements toTf listType adopted es vals = Ret r ->
    match r with
    | inl (v, err) =>
        v = tftypes.NewValue listType tftypes.UnknownValue /\ err <> None
    | inr vals' => List.length vals' = List.length vals + List.length es
    end.
Proof.
  induction es as [|e es IH]; intros vals r H; simpl in H.
  - injection H as <-. simpl. lia.
  - apply bind_Ret_inv in H as ([w err] & _ & H).
    destruct err as [err|].
    + injection H as <-. split; [reflexivity | discriminate].
    + apply IH in H. destruct r as [[v err]|vals']; [exact H|].
      rewrite length_app in H. simpl in *. lia.
Qed.

(** X5.  Whatever [ToTerraformValue] returns is of the wire list type of
    the element type.  With an error it is the unknown marker of that type;
    without error it is the null marker for a null list, the unknown marker
    for an unknown list and, for a known list, a payload with one wire value
    for each element. *)
Theorem ToTerraformValue_wire_type
    (l : ListVal Other) (t : attr.Type_) (v : tftypes.Value) (err : option error) :
  elementType l = Some t ->
  ListValue_ToTerraformValue C l = Ret (v, err) ->
  let listType := tftypes.List_ (TerraformType C t) in
  tftypes.Type_of v = listType
  /\ (err <> None -> v = tftypes.NewValue listType tftypes.UnknownValue)
  /\ (err = None ->
      (state l = attr.ValueStateNull /\ v = tftypes.NewValue listType tftypes.Nil)
      \/ (state l = attr.ValueStateUnknown
          /\ v = tftypes.NewValue listType tftypes.UnknownValue)
      \/ (state l = attr.ValueStateKnown
          /\ exists vals, v = tftypes.NewValue listType (tftypes.Values vals)
                          /\ List.length vals = List.length (elements l))).
Proof.
  intros Et H listType.
  unfold ListValue_ToTerraformValue, ListValue_ToTerraformValue_with, ElementType in H.
  rewrite Et in H. fold listType in H.
  destruct (N.eqb (state l) attr.ValueStateKnown) eqn:Ek.
  - apply N.eqb_eq in Ek.
    apply bind_Ret_inv in H as (adopted & _ & H).
    apply bind_Ret_inv in H as (r & Hr & H).
    apply convertElements_shape in Hr.
    destruct r as [[v' err']|vals].
    + destruct Hr as [-> Herr]. injection H as <- <-.
      split; [reflexivity|]. split; [reflexivity|].
      intros ->. contradiction.
    + destruct (ValidateValue C listType vals) as [e|]; injection H as <- <-.
      * split; [reflexivity|]. split; [reflexivity | discriminate].
      * split; [reflexivity|]. split; [congruence|].
        intros _. right. right.
        split; [exact Ek|]. exists vals. split; [reflexivity | exact Hr].
  - destruct (N.eqb (state l) attr.ValueStateNull) eqn:En.
    { apply N.eqb_eq in En. injection H as <- <-.
      split; [reflexivity|]. split; [congruence|]. intros _. left. auto. }
    destruct (N.eqb (state l) attr.ValueStateUnknown) eqn:Eu; [|discriminate].
    apply N.eqb_eq in Eu. injection H as <- <-.
    split; [reflexivity|]. split; [congruence|]. intros _. right. left. auto.
Qed.

(** X7.  On a known list value whose declared element type is not dynamic,
    no element type is adopted from the elements: when the conversions of
    the elements return without error, the null and the unknown dynamic
    placeholders among the converted elements take the wire type of the
    declared element type, every other converted element is kept, and the
    result is the wire list of these values if the validation accepts them,
    the unknown marker with the validation error if not.  The first error
    of an element is returned as it is, with the unknown marker. *)
Theorem ToTerraformValue_static_elements
    (l : ListVal Other) (t : attr.Type_)
    (rs : list (tftypes.Value * option error)) :
  elementType l = Some t ->
  attr.isTypeWithDynamicValue (Some t) = false ->
  state l = attr.ValueStateKnown ->
  wire_facts.returns C (elements l) rs ->
  let listType := tftypes.List_ (TerraformType C t) in
  let vals := map (wire_facts.retyped (TerraformType C t)) (map fst rs) in
  ListValue_ToTerraformValue C l
  = Ret (match find wire_facts.failed rs with
         | Some r => (tftypes.NewValue listType tftypes.UnknownValue, snd r)
         | None =>
             match ValidateValue C listType vals with
             | Some err => (tftypes.NewValue listType tftypes.UnknownValue, Some err)
             | None => (tftypes.NewValue listType (tftypes.Values vals), None)
             end
         end)
  /\ (Forall (fun r => wire_facts.concrete (fst r) = true) rs -> vals = map fst rs).
Proof.
  intros Et Hdyn Est Hret listType vals. split.
  - unfold ListValue_ToTerraformValue, ListValue_ToTerraformValue_with, ElementType.
    rewrite Et, Est, Hdyn. simpl.
    rewrite (wire_facts.convertElements_result _ _ Hret). simpl.
    fold listType vals.
    destruct (find wire_facts.failed rs); [reflexivity|].
    destruct (ValidateValue C listType vals); reflexivity.
  - unfold vals. clear. induction 1 as [|[w e] rs Hw _ IH]; simpl; [reflexivity|].
    f_equal; [|exact IH]. simpl in Hw.
    destruct w as [ty p]. unfold wire_facts.concrete in Hw. simpl in Hw.
    destruct ty; try reflexivity. discriminate.
Qed.

(** X8.  When the conversion of the list returns an error, [ElementsAs]
    returns a single error diagnostic, List Element Conversion Error, whose
    detail ends with the text of the error, and the binding collaborator is
    not consulted: the result is the same whatever the collaborator and the
    flag are. *)
Theorem ElementsAs_conversion_error
    (Into Into' : attr.Type_ -> tftypes.Value -> reflect.Options -> diag.Diagnostics)
    (l : ListVal Other) (allowUnhandled allowUnhandled' : bool)
    (v : tftypes.Value) (e : error) :
  ListValue_ToTerraformValue C l = Ret (v, Some e) ->
  (exists d,
      ElementsAs C Into l allowUnhandled = Ret [d]
      /\ diag.severity d = diag.SeverityError
      /\ diag.Summary d = "List Element Conversion Error"
      /\ exists pre, diag.Detail d = pre +++ e)
  /\ ElementsAs C Into l allowUnhandled = ElementsAs C Into' l allowUnhandled'.
Proof.
  intros H. unfold ElementsAs. rewrite H.
  cbv beta iota delta [bind]. split; [|reflexivity].
  eexists. split; [reflexivity|].
  split; [reflexivity|]. split; [reflexivity|].
  unfold diag.NewErrorDiagnostic. cbn [diag.Detail].
  do 2 apply endsWith_after. exists nl. reflexivity.
Qed.

End Wire.

End wire_more.

(** ** String rendering *)
Module string_more.
Import basetypes.

Section Rendering.
Variable Other : Type.
Variable C : Collaborators Other.

Lemma append_nil_r (s : string) : s +++ "" = s.
Proof. induction s as [|c s IH]; simpl; [reflexivity | now rewrite IH]. Qed.

(** Every element preceded by a comma. *)
Fixpoint commaSeparated (f : Value Other -> string) (es : list (Value Other)) : string :=
  match es with
  | [] => ""
  | e :: rest => "," +++ f e +++ commaSeparated f rest
  end.

Lemma writeElements_later (f : Value Other -> string) es :
  forall i res,
    writeElements f (S i) es res = res +++ commaSeparated f es.
Proof.
  induction es as [|e es IH]; intros i res; simpl.
  - now rewrite append_nil_r.
  - rewrite IH. now rewrite !append_assoc.
Qed.

Lemma Join_cons (f : Value Other -> string) e es :
  Join (map f (e :: es)) "," = f e +++ commaSeparated f es.
Proof.
  revert e. induction es as [|q es IH]; intros e.
  - simpl. now rewrite append_nil_r.
  - change (Join (map f (e :: q :: es)) ",")
      with (f e +++ "," +++ Join (map f (q :: es)) ",").
    rewrite IH. reflexivity.
Qed.

Lemma writeElements_Join (f : Value Other -> string) es :
  writeElements f 0 es "[" = "[" +++ Join (map f es) ",".
Proof.
  destruct es as [|e es]; [reflexivity|].
  rewrite Join_cons.
  change (writeElements f 0 (e :: es) "[")
    with (writeElements f 1 es ("[" +++ f e)).
  rewrite writeElements_later. now rewrite append_assoc.
Qed.

(** X9.  [String] renders an unknown list as the unknown token, a null
    list as the null token, and every other list as its elements' own
    renderings, in order, separated by commas and enclosed in square
    brackets; the empty list renders as a pair of brackets. *)
Theorem ListValue_String_render (l : ListVal Other) :
  ListValue_String C l
  = (if IsUnknown l then attr.UnknownValueString
     else if IsNull l then attr.NullValueString
     else "[" +++ Join (map (Value_String C) (elements l)) "," +++ "]")
  /\ (IsUnknown l = false -> IsNull l = false -> elements l = [] ->
      ListValue_String C l = "[]").
Proof.
  assert (H : ListValue_String C l
              = (if IsUnknown l then attr.UnknownValueString
                 else if IsNull l then attr.NullValueString
                 else "[" +++ Join (map (Value_String C) (elements l)) "," +++ "]")).
  { unfold ListValue_String, ListValue_String_with, Elements.
    destruct (IsUnknown l); [reflexivity|].
    destruct (IsNull l); [reflexivity|].
    change ([] ++ elements l) with (elements l).
    rewrite writeElements_Join. now rewrite append_assoc. }
  split; [exact H|].
  intros Hu Hn He. rewrite H, Hu, Hn, He. reflexivity.
Qed.

End Rendering.

End string_more.

(** ** Equality *)
Module equality_more.
Import basetypes.

Lemma Primitive_eqb_eq p q : attr.Primitive_eqb p q = true -> p = q.
Proof. destruct p, q; simpl; congruence. Qed.

Lemma Type_eqb_eq t : forall u, attr.Type_eqb t u = true -> t = u.
Proof.
  induction t as [p| |e IH|e IH|e IH|ts IH|ats IH] using attr.Type_nested_ind;
    intros u H; destruct u; simpl in H; try discriminate.
  - f_equal. now apply Primitive_eqb_eq.
  - reflexivity.
  - destruct e as [e|], ElemType as [e'|]; try discriminate; [|reflexivity].
    simpl in IH. now rewrite (IH e' H).
  - destruct e as [e|], ElemType as [e'|]; try discriminate; [|reflexivity].
    simpl in IH. now rewrite (IH e' H).
  - destruct e as [e|], ElemType as [e'|]; try discriminate; [|reflexivity].
    simpl in IH. now rewrite (IH e' H).
  - f_equal. revert ElemTypes H.
    induction IH as [|x ts Hx _ IHts]; intros [|y us] H; try discriminate;
      [reflexivity|].
    apply andb_true_iff in H as [H1 H2].
    now rewrite (Hx y H1), (IHts us H2).
  - f_equal. revert AttrTypes H.
    induction IH as [|[k x] ats Hx _ IHats]; intros [|[k' y] us] H;
      try discriminate; [reflexivity|].
    apply andb_true_iff in H as [H1 H2].
    apply andb_true_iff in H1 as [Hk H1].
    apply String.eqb_eq in Hk. simpl in Hx.
    now rewrite Hk, (Hx y H1), (IHats us H2).
Qed.

Section Equality.
Variable Other : Type.
Variable C : Collaborators Other.

Lemma Forall2_trans_Forall (R : Value Other -> Value Other -> Prop) xs :
  Forall (fun x => forall y z, R x y -> R y z -> R x z) xs ->
  forall ys zs, Forall2 R xs ys -> Forall2 R ys zs -> Forall2 R xs zs.
Proof.
  induction 1 as [|x xs Hx _ IH]; intros ys zs H1 H2.
  - inversion H1; subst. inversion H2; subst. constructor.
  - inversion H1; subst. inversion H2; subst. constructor; eauto.
Qed.

(** X11.  A value that [Equal] accepts for a list value is a list value of
    an equal type: the two are null together and unknown together and, when
    known, have the same number of elements. *)
Theorem ListValue_Equal_same_type (l : ListVal Other) (o : Value Other) :
  ListValue_Equal C l o = Ret true ->
  attr.Type_Equal (ListValue_Type l) (Some (Value_Type C o)) = true
  /\ exists other,
      o = VList other
      /\ IsNull l = IsNull other
      /\ IsUnknown l = IsUnknown other
      /\ (state l = attr.ValueStateKnown ->
          List.length (elements l) = List.length (elements other)).
Proof.
  intros H. apply basetypes_facts.ListValue_Equal_spec in H.
  destruct H as (other & -> & (t & Et & Hty) & Hst & Hes).
  split.
  - simpl. unfold ListValue_Type, ElementType. rewrite Et.
    destruct (elementType other) as [u|]; [exact Hty | discriminate].
  - exists other. unfold IsNull, IsUnknown.
    split; [reflexivity|]. split; [now rewrite Hst|]. split; [now rewrite Hst|].
    intros Hk. eapply Forall2_length. exact (Hes Hk).
Qed.

Section TransitiveElements.

(** The [Equal] methods of the other values are transitive, and none of
    them takes a list value for an equal. *)
Hypothesis other_Equal_trans :
  forall a b c,
    other_Equal C a (VOther b) = true -> other_Equal C b (VOther c) = true ->
    other_Equal C a (VOther c) = true.
Hypothesis other_Equal_list :
  forall o l, other_Equal C o (VList l) = false.

Lemma Value_Equal_trans (a : Value Other) :
  forall b c,
    Value_Equal C a b = Ret true -> Value_Equal C b c = Ret true ->
    Value_Equal C a c = Ret true.
Proof.
  induction a as [l IH|x] using basetypes_facts.Value_nested_ind; intros b c Hab Hbc.
  - rewrite basetypes_facts.ListValue_Equal_unfold in Hab |- *.
    apply basetypes_facts.ListValue_Equal_spec in Hab.
    destruct Hab as (m & -> & (t & Et & Hty) & Hst & Hes).
    rewrite basetypes_facts.ListValue_Equal_unfold in Hbc.
    apply basetypes_facts.ListValue_Equal_spec in Hbc.
    destruct Hbc as (n & -> & (u & Eu & Huy) & Hst' & Hes').
    apply basetypes_facts.ListValue_Equal_spec.
    exists n. split; [reflexivity|]. split; [|split].
    + exists t. split; [exact Et|].
      rewrite Eu in Hty. simpl in Hty. apply Type_eqb_eq in Hty. now subst u.
    + congruence.
    + intros Hk. eapply Forall2_trans_Forall; eauto.
      apply Hes'. congruence.
  - simpl in Hab. injection Hab as Hab.
    destruct b as [m|y]; [now rewrite other_Equal_list in Hab|].
    simpl in Hbc. injection Hbc as Hbc.
    destruct c as [n|z]; [now rewrite other_Equal_list in Hbc|].
    simpl. f_equal. eauto.
Qed.

(** X10.  [Equal] is transitive on list values whose other elements have a
    transitive [Equal] of their own: when [Equal(a, b)] and [Equal(b, c)]
    are true, so is [Equal(a, c)]. *)
Theorem ListValue_Equal_trans (a b c : ListVal Other) :
  ListValue_Equal C a (VList b) = Ret true ->
  ListValue_Equal C b (VList c) = Ret true ->
  ListValue_Equal C a (VList c) = Ret true.
Proof.
  rewrite <- !basetypes_facts.ListValue_Equal_unfold. apply Value_Equal_trans.
Qed.

End TransitiveElements.

End Equality.

End equality_more.

(** ** The list attribute and its validation *)
Module schema_more.
Import schema.

Lemma holdsDynamic_object (ats : list (string * attr.Type_)) :
  schema_facts.holdsDynamic (attr.TObject ats)
  <-> exists kt, In kt ats /\ schema_facts.holdsDynamic (snd kt).
Proof.
  split.
  - intros H. inversion H; subst. eauto.
  - intros (kt & Hin & Hd). now apply schema_facts.hd_object with kt.
Qed.

Lemma holdsDynamic_tuple (ts : list attr.Type_) :
  schema_facts.holdsDynamic (attr.TTuple ts)
  <-> exists t, In t ts /\ schema_facts.holdsDynamic t.
Proof.
  split.
  - intros H. inversion H; subst. eauto.
  - intros (t & Hin & Hd). now apply schema_facts.hd_tuple with t.
Qed.

Section Check.
Variable Path : Type.
Variable CollectionWithDynamicTypeDiag : Path -> diag.Diagnostic.

Lemma check_determined (p : Path) (t u : attr.Type_) :
  (schema_facts.holdsDynamic t <-> schema_facts.holdsDynamic u) ->
  checkAttrType CollectionWithDynamicTypeDiag p t
  = checkAttrType CollectionWithDynamicTypeDiag p u.
Proof.
  intros Hiff.
  destruct (schema_facts.check_sound CollectionWithDynamicTypeDiag p t) as [T1 T2].
  destruct (schema_facts.check_sound CollectionWithDynamicTypeDiag p u) as [U1 U2].
  destruct (checkAttrType CollectionWithDynamicTypeDiag p t) as [d|];
    destruct (checkAttrType CollectionWithDynamicTypeDiag p u) as [d'|].
  - destruct (T1 d eq_refl) as [-> _]. destruct (U1 d' eq_refl) as [-> _].
    reflexivity.
  - destruct (T1 d eq_refl) as [_ Hd]. exfalso. apply (U2 eq_refl). now apply Hiff.
  - destruct (U1 d' eq_refl) as [_ Hd]. exfalso. apply (T2 eq_refl). now apply Hiff.
  - reflexivity.
Qed.

(** X12.  The result of [checkAttrTypeForDynamics] on an object type does
    not depend on the order in which its attribute types are visited, and on
    a tuple type not on the order of its element types: any rearrangement of
    them gives the same diagnostic or none. *)
Theorem checkAttrTypeForDynamics_order (p : Path) :
  (forall ats ats' : list (string * attr.Type_),
      Permutation ats ats' ->
      checkAttrTypeForDynamics CollectionWithDynamicTypeDiag p (Some (attr.TObject ats))
      = checkAttrTypeForDynamics CollectionWithDynamicTypeDiag p
          (Some (attr.TObject ats')))
  /\ (forall ts ts' : list attr.Type_,
         Permutation ts ts' ->
         checkAttrTypeForDynamics CollectionWithDynamicTypeDiag p (Some (attr.TTuple ts))
         = checkAttrTypeForDynamics CollectionWithDynamicTypeDiag p
             (Some (attr.TTuple ts'))).
Proof.
  split.
  - intros ats ats' Hperm. unfold checkAttrTypeForDynamics.
    apply check_determined. rewrite !holdsDynamic_object.
    split; intros (kt & Hin & Hd); exists kt; split; auto.
    + eapply Permutation_in; eauto.
    + eapply Permutation_in; [apply Permutation_sym|]; eauto.
  - intros ts ts' Hperm. unfold checkAttrTypeForDynamics.
    apply check_determined. rewrite !holdsDynamic_tuple.
    split; intros (t & Hin & Hd); exists t; split; auto.
    + eapply Permutation_in; eauto.
    + eapply Permutation_in; [apply Permutation_sym|]; eauto.
Qed.

End Check.

(** Finds a diagnostic within appended lists of diagnostics. *)
Ltac find_in :=
  match goal with
  | H : In ?x ?l |- In ?x ?l => exact H
  | |- In ?x (?l ++ ?r) =>
      apply in_or_app; first [ left; find_in | right; find_in ]
  | |- In ?x (?y :: ?l) => first [ left; reflexivity | right; find_in ]
  end.

Section Attribute.
Variable Path : Type.
Variable Other : Type.
Variable Default : Type.
Variable Validator : Type.
Variable PlanModifier : Type.
Variable CollectionWithDynamicTypeDiag : Path -> diag.Diagnostic.
Variable AttributeMissingElementTypeDiag : Path -> diag.Diagnostic.
Variable nonComputedAttributeWithDefaultDiag : Path -> diag.Diagnostic.
Variable AttributeDefaultElementTypeMismatchDiag :
  Path -> attr.Type_ -> option attr.Type_ -> diag.Diagnostic.

(** [ValidateImplementation] with the diagnostics of package fwschema
    fixed, over the implementations of the defaults. *)
Definition validate
    (DefaultList : Default -> ListRequest Path -> ListResponse Other)
    (a : ListAttribute Default Validator PlanModifier) (p : Path)
    (resp : diag.Diagnostics) : diag.Diagnostics :=
  ValidateImplementation CollectionWithDynamicTypeDiag
    AttributeMissingElementTypeDiag nonComputedAttributeWithDefaultDiag
    AttributeDefaultElementTypeMismatchDiag DefaultList a p resp.

(** What the default of the attribute, if any, answers at the path. *)
Definition defaultResponse
    (DefaultList : Default -> ListRequest Path -> ListResponse Other)
    (a : ListAttribute Default Validator PlanModifier) (p : Path)
    : option (ListResponse Other) :=
  option_map (fun d => DefaultList d (mkListRequest p)) (Default_ a).

(** The attribute is well defined at the path: it has an element type or a
    custom type, its element type holds no dynamic type, and its default, if
    it has one, belongs to a computed attribute, reports nothing and plans a
    list of the attribute's element type. *)
Definition wellDefined
    (DefaultList : Default -> ListRequest Path -> ListResponse Other)
    (a : ListAttribute Default Validator PlanModifier) (p : Path) : Prop :=
  (CustomType a <> None \/ ElementType a <> None)
  /\ (forall t, ElementType a = Some t -> ~ schema_facts.holdsDynamic t)
  /\ match defaultResponse DefaultList a p with
     | None => True
     | Some r =>
         Computed a = true
         /\ response_Diagnostics r = []
         /\ (forall t, ElementType a = Some t ->
                       attr.Type_Equal t (basetypes.elementType (PlanValue r)) = true)
     end.

Lemma validate_appends DefaultList a p resp :
  validate DefaultList a p resp = resp ++ validate DefaultList a p [].
Proof.
  unfold validate, ValidateImplementation, appendDiagnostic, diag.Append,
    ListDefaultValue, IsComputed.
  destruct (basetypes.isNil (CustomType a) && basetypes.isNil (ElementType a));
    destruct (ElementType a) as [t|];
    try destruct (checkAttrTypeForDynamics _ _ _) as [found|];
    destruct (Default_ a) as [dflt|];
    try destruct (negb (Computed a));
    try destruct (diag.HasError _);
    try destruct (negb (attr.Type_Equal _ _));
    simpl; rewrite <- ?app_assoc; simpl; rewrite ?app_nil_r; reflexivity.
Qed.

(** X13.  [ValidateImplementation] only ever adds diagnostics to the
    response, after those it holds.  Among the ones it adds are: the
    missing-element-type diagnostic when neither an element type nor a custom
    type is set; the dynamic-type diagnostic when the element type is dynamic
    or holds a dynamic type at any depth; the default-on-non-computed
    diagnostic when a default is set on an attribute that is not computed;
    every diagnostic of the default itself; and, when the default reports no
    error, the element-type-mismatch diagnostic when the planned list is not
    of the attribute's element type. *)
Theorem ValidateImplementation_reports
    (DefaultList : Default -> ListRequest Path -> ListResponse Other)
    (a : ListAttribute Default Validator PlanModifier) (p : Path)
    (resp : diag.Diagnostics) :
  exists added,
    validate DefaultList a p resp = resp ++ added
    /\ (CustomType a = None -> ElementType a = None ->
        In (AttributeMissingElementTypeDiag p) added)
    /\ (forall t, ElementType a = Some t -> schema_facts.holdsDynamic t ->
                  In (CollectionWithDynamicTypeDiag p) added)
    /\ (forall r, defaultResponse DefaultList a p = Some r ->
          (Computed a = false -> In (nonComputedAttributeWithDefaultDiag p) added)
          /\ incl (response_Diagnostics r) added
          /\ (forall t,
                 diag.HasError (response_Diagnostics r) = false ->
                 ElementType a = Some t ->
                 attr.Type_Equal t (basetypes.elementType (PlanValue r)) = false ->
                 In (AttributeDefaultElementTypeMismatchDiag p t
                       (basetypes.elementType (PlanValue r))) added)).
Proof.
  exists (validate DefaultList a p []).
  split; [apply validate_appends|].
  unfold validate, ValidateImplementation, appendDiagnostic, diag.Append,
    ListDefaultValue, IsComputed, defaultResponse, basetypes.ElementType.
  split; [|split].
  - intros -> ->. simpl.
    destruct (Default_ a) as [d|]; [|now left].
    destruct (negb (Computed a)); destruct (diag.HasError _); find_in.
  - intros t Et Hd. rewrite Et.
    assert (Hc : checkAttrTypeForDynamics CollectionWithDynamicTypeDiag p (Some t)
                 = Some (CollectionWithDynamicTypeDiag p)).
    { destruct (schema_facts.check_sound CollectionWithDynamicTypeDiag p t) as [H1 H2].
      simpl. destruct (checkAttrType CollectionWithDynamicTypeDiag p t) as [d|].
      - now destruct (H1 d eq_refl) as [-> _].
      - exfalso. now apply H2. }
    rewrite Hc.
    destruct (basetypes.isNil (CustomType a) && basetypes.isNil (Some t));
      destruct (Default_ a) as [d|];
      try destruct (negb (Computed a));
      try destruct (diag.HasError _);
      try destruct (negb (attr.Type_Equal _ _));
      find_in.
  - intros r Hr. destruct (Default_ a) as [d|]; [|discriminate].
    injection Hr as <-.
    split; [|split].
    + intros Hc. rewrite Hc. simpl.
      destruct (diag.HasError _); destruct (ElementType a);
        try destruct (negb (attr.Type_Equal _ _));
        find_in.
    + intros x Hx.
      destruct (negb (Computed a)); destruct (diag.HasError _);
        destruct (ElementType a);
        try destruct (negb (attr.Type_Equal _ _));
        find_in.
    + intros t He Et Hne. rewrite He, Et, Hne. simpl.
      destruct (negb (Computed a)); find_in.
Qed.

Definition missingPart (a : ListAttribute Default Validator PlanModifier) (p : Path)
    : diag.Diagnostics :=
  if basetypes.isNil (CustomType a) && basetypes.isNil (ElementType a)
  then [AttributeMissingElementTypeDiag p] else [].

Definition dynamicPart (a : ListAttribute Default Validator PlanModifier) (p : Path)
    : diag.Diagnostics :=
  match ElementType a with
  | Some t =>
      match checkAttrType CollectionWithDynamicTypeDiag p t with
      | Some d => [d]
      | None => []
      end
  | None => []
  end.

Definition defaultPart
    (DefaultList : Default -> ListRequest Path -> ListResponse Other)
    (a : ListAttribute Default Validator PlanModifier) (p : Path)
    : diag.Diagnostics :=
  match defaultResponse DefaultList a p with
  | None => []
  | Some r =>
      (if negb (Computed a) then [nonComputedAttributeWithDefaultDiag p] else [])
      ++ response_Diagnostics r
      ++ (if diag.HasError (response_Diagnostics r) then []
          else match ElementType a with
               | Some t =>
                   if negb (attr.Type_Equal t (basetypes.elementType (PlanValue r)))
                   then [AttributeDefaultElementTypeMismatchDiag p t
                           (basetypes.elementType (PlanValue r))]
                   else []
               | None => []
               end)
  end.

Lemma validate_parts DefaultList a p :
  validate DefaultList a p []
  = missingPart a p ++ dynamicPart a p ++ defaultPart DefaultList a p.
Proof.
  unfold validate, ValidateImplementation, appendDiagnostic, diag.Append,
    ListDefaultValue, IsComputed, missingPart, dynamicPart, defaultPart,
    defaultResponse, checkAttrTypeForDynamics, basetypes.ElementType.
  cbv zeta.
  destruct (basetypes.isNil (CustomType a) && basetypes.isNil (ElementType a));
    destruct (ElementType a) as [t|];
    try destruct (checkAttrType _ _ _) as [found|];
    destruct (Default_ a) as [dflt|]; cbn [option_map];
    try destruct (negb (Computed a));
    try destruct (diag.HasError _);
    try destruct (negb (attr.Type_Equal _ _));
    simpl; rewrite <- ?app_assoc; simpl; rewrite ?app_nil_r; reflexivity.
Qed.

(** X14.  Starting from a response without diagnostics,
    [ValidateImplementation] leaves it without diagnostics exactly when the
    attribute is well defined: an element type or a custom type is set, the
    element type holds no dynamic type, and the default, if there is one,
    belongs to a computed attribute, reports no diagnostic and plans a list
    of the attribute's element type. *)
Theorem ValidateImplementation_accepts
    (DefaultList : Default -> ListRequest Path -> ListResponse Other)
    (a : ListAttribute Default Validator PlanModifier) (p : Path) :
  validate DefaultList a p [] = [] <-> wellDefined DefaultList a p.
Proof.
  rewrite validate_parts. unfold wellDefined.
  assert (Hmissing : missingPart a p = []
                     <-> (CustomType a <> None \/ ElementType a <> None)).
  { unfold missingPart.
    destruct (CustomType a), (ElementType a); simpl;
      (split; [intros H; try discriminate; auto; try (left; discriminate);
               right; discriminate
              |intros [H|H]; try reflexivity; congruence]). }
  assert (Hdynamic : dynamicPart a p = []
                     <-> (forall t, ElementType a = Some t ->
                                    ~ schema_facts.holdsDynamic t)).
  { unfold dynamicPart. destruct (ElementType a) as [t|].
    - destruct (schema_facts.check_sound CollectionWithDynamicTypeDiag p t)
        as [H1 H2].
      destruct (checkAttrType CollectionWithDynamicTypeDiag p t) as [d|].
      + split; [discriminate|]. intros H. exfalso.
        apply (H t eq_refl). now destruct (H1 d eq_refl).
      + split; [|reflexivity]. intros _ u Hu. injection Hu as <-. now apply H2.
    - split; [|reflexivity]. intros _ u Hu. discriminate. }
  assert (Hdefault : defaultPart DefaultList a p = []
            <-> match defaultResponse DefaultList a p with
                | None => True
                | Some r =>
                    Computed a = true
                    /\ response_Diagnostics r = []
                    /\ (forall t, ElementType a = Some t ->
                          attr.Type_Equal t (basetypes.elementType (PlanValue r))
                          = true)
                end).
  { unfold defaultPart.
    destruct (defaultResponse DefaultList a p) as [r|]; [|tauto].
    destruct (Computed a); simpl.
    2:{ split; [discriminate|]. intros [H _]. discriminate. }
    destruct (response_Diagnostics r) as [|d ds]; simpl.
    2:{ split; [discriminate|]. intros (_ & H & _). discriminate. }
    destruct (ElementType a) as [t|].
    - destruct (attr.Type_Equal t (basetypes.elementType (PlanValue r))) eqn:E;
        simpl.
      + split; [|reflexivity]. intros _. repeat split.
        intros u Hu. injection Hu as <-. exact E.
      + split; [discriminate|]. intros (_ & _ & H).
        specialize (H t eq_refl). congruence.
    - split; [|reflexivity]. intros _. repeat split. intros u Hu. discriminate. }
  rewrite <- Hmissing, <- Hdynamic, <- Hdefault.
  split.
  - intros H. apply app_eq_nil in H as [H1 H]. apply app_eq_nil in H as [H2 H3].
    auto.
  - intros (-> & -> & ->). reflexivity.
Qed.

(** X15.  When the default of the attribute reports an error, the value it
    plans is not looked at: two defaults that report the same diagnostics,
    an error among them, get the same diagnostics from
    [ValidateImplementation], whatever lists they plan. *)
Theorem ValidateImplementation_default_error
    (DefaultList DefaultList' : Default -> ListRequest Path -> ListResponse Other)
    (a : ListAttribute Default Validator PlanModifier) (p : Path)
    (resp : diag.Diagnostics) (d : Default) :
  Default_ a = Some d ->
  response_Diagnostics (DefaultList d (mkListRequest p))
  = response_Diagnostics (DefaultList' d (mkListRequest p)) ->
  diag.HasError (response_Diagnostics (DefaultList d (mkListRequest p))) = true ->
  validate DefaultList a p resp = validate DefaultList' a p resp.
Proof.
  intros Hd Hsame Herr.
  unfold validate, ValidateImplementation, ListDefaultValue.
  rewrite Hd. cbv zeta. rewrite <- Hsame, Herr. reflexivity.
Qed.

End Attribute.

End schema_more.

(** ** Construction from a native aggregate *)
Module from_more.
Import basetypes.

Section From.
Variable Other : Type.
Variable Native : Type.
Variable FromValue : attr.Type_ -> Native -> option (Value Other) * diag.Diagnostics.

Lemma HasError_AddError (ds : diag.Diagnostics) (summary detail : string) :
  diag.HasError (diag.AddError ds summary detail) = true.
Proof.
  unfold diag.HasError, diag.AddError. rewrite existsb_app. simpl.
  apply orb_true_r.
Qed.

(** X16.  [NewListValueFrom] never drops a diagnostic of the binding
    collaborator and never returns a known list together with an error.
    When the collaborator reports an error the result is the list with no
    elements, the element type asked for and the unknown state; when it
    reports none and hands back a list value, that list value is returned as
    it is; when it hands back anything else, or nothing, the result is the
    zero list value, with no elements, the nil element type and the null
    state, with an error diagnostic added. *)
Theorem NewListValueFrom_outcomes (ety : option attr.Type_) (els : Native) :
  let r := FromValue (attr.TList ety) els in
  let out := NewListValueFrom FromValue ety els in
  (exists added, snd out = snd r ++ added)
  /\ (diag.HasError (snd out) = true ->
      state (fst out) <> attr.ValueStateKnown /\ elements (fst out) = [])
  /\ (diag.HasError (snd r) = true ->
      out = (mkListValue [] ety attr.ValueStateUnknown, snd r))
  /\ (diag.HasError (snd r) = false ->
      forall list, fst r = Some (VList list) -> out = (list, snd r))
  /\ (diag.HasError (snd r) = false ->
      (forall list, fst r <> Some (VList list)) ->
      fst out = mkListValue [] None attr.ValueStateNull
      /\ diag.HasError (snd out) = true).
Proof.
  intros r out. unfold out, NewListValueFrom. fold r.
  destruct r as [attrValue fdiags]. simpl.
  destruct (diag.HasError fdiags) eqn:E.
  - simpl. split; [exists []; now rewrite app_nil_r|].
    split; [intros _; split; [discriminate | reflexivity]|].
    split; [reflexivity|]. split; discriminate.
  - destruct attrValue as [[list|o]|]; simpl.
    + split; [exists []; now rewrite app_nil_r|].
      split; [intros H; congruence|].
      split; [discriminate|].
      split; [intros _ list' H; injection H as <-; reflexivity|].
      intros _ H. exfalso. now apply (H list).
    + split; [eexists; reflexivity|].
      split; [intros _; split; [discriminate | reflexivity]|].
      split; [discriminate|].
      split; [intros _ list' H; discriminate|].
      intros _ _. split; [reflexivity | apply HasError_AddError].
    + split; [eexists; reflexivity|].
      split; [intros _; split; [discriminate | reflexivity]|].
      split; [discriminate|].
      split; [intros _ list' H; discriminate|].
      intros _ _. split; [reflexivity | apply HasError_AddError].
Qed.

End From.

End from_more.

(** ** The slice given to NewListValue *)
Module store_more.
Import slices.

Section Construction.
Variable Other : Type.
Variable C : basetypes.Collaborators Other.

(** The nil slice. *)
Definition nilSlice : slice := mkSlice 0 0 0 0.

(** [NewListValue] in a store: the elements are read through the caller's
    slice (calling [Type] on a nil element panics), and the known list value
    keeps that very slice. *)
Definition NewListValueRef (h : store (option (basetypes.Value Other)))
    (elementType : option attr.Type_) (elements : slice)
    : outcome (ListValueRef * diag.Diagnostics) :=
  diags <- basetypes.checkElements C elementType 0 (load h elements) [] ;;
  if diag.HasError diags then
    Ret (mkListValueRef nilSlice elementType attr.ValueStateUnknown, diags)
  else
    Ret (mkListValueRef elements elementType attr.ValueStateKnown, []).

Lemma reify_map_Some (es : list (basetypes.Value Other)) :
  slices_facts.reify (map Some es) = Some es.
Proof.
  induction es as [|e es IH]; [reflexivity|].
  simpl. fold (slices_facts.reify (map Some es)). now rewrite IH.
Qed.

Lemma skipn_setNth (A : Type) (c : A) (off : nat) :
  forall i arr, skipn off (setNth (off + i) c arr) = setNth i c (skipn off arr).
Proof.
  induction off as [|off IH]; intros i arr; simpl; [reflexivity|].
  destruct arr as [|y arr]; simpl.
  - destruct i; reflexivity.
  - apply IH.
Qed.

Lemma firstn_setNth (A : Type) (c : A) (n : nat) :
  forall i xs, i < n -> firstn n (setNth i c xs) = setNth i c (firstn n xs).
Proof.
  induction n as [|n IH]; intros i xs Hi; [lia|].
  destruct xs as [|y xs]; simpl; [destruct i; reflexivity|].
  destruct i as [|i]; simpl; [reflexivity|].
  f_equal. apply IH. lia.
Qed.

Lemma load_assign (A : Type) (h : store A) (s : slice) (i : nat) (c : A) :
  inStore h s -> i < len s ->
  load (setArray (array s) (setNth (offset s + i) c) h) s = setNth i c (load h s).
Proof.
  intros Hin Hi. unfold load.
  rewrite slices_facts.setArray_same by exact Hin.
  rewrite skipn_setNth. now apply firstn_setNth.
Qed.

Lemma reify_setNth (cells : list (option (basetypes.Value Other))) x :
  forall i es,
    slices_facts.reify cells = Some es ->
    slices_facts.reify (setNth i (Some x) cells) = Some (setNth i x es).
Proof.
  induction cells as [|c cells IH]; intros i es H; simpl in *.
  - injection H as <-. destruct i; reflexivity.
  - destruct c as [v|]; [|discriminate].
    destruct (slices_facts.reify cells) as [vs|] eqn:E; [|discriminate].
    injection H as <-.
    destruct i as [|i]; simpl.
    + fold (slices_facts.reify cells). now rewrite E.
    + fold (slices_facts.reify (setNth i (Some x) cells)).
      now rewrite (IH i vs eq_refl).
Qed.

(** X17.  A known list value made by [NewListValue] keeps the slice it
    was given, without copying it: when the caller afterwards assigns a
    value through that slice, the list value holds this value at that index,
    whatever its type. *)
Theorem NewListValue_keeps_the_slice
    (h : store (option (basetypes.Value Other)))
    (ety : option attr.Type_) (s : slice)
    (l : ListValueRef) (diags : diag.Diagnostics) :
  NewListValueRef h ety s = Ret (l, diags) ->
  diag.HasError diags = false ->
  inStore h s ->
  elements l = s
  /\ exists es,
      slices_facts.snapshot h l
      = Some (basetypes.mkListValue es ety attr.ValueStateKnown)
      /\ forall i x,
          i < len s ->
          exists h',
            assign h s i (Some x) = Ret h'
            /\ slices_facts.snapshot h' l
               = Some (basetypes.mkListValue (setNth i x es) ety
                         attr.ValueStateKnown).
Proof.
  unfold NewListValueRef. intros H Herr Hin.
  apply bind_Ret_inv in H as (ds & Hds & H).
  pose proof (@construction_facts.checkElements_returns _ C _ (load h s) 0 [] ds Hds)
    as Hes.
  set (es := basetypes.present (load h s)) in *.
  assert (Er : slices_facts.reify (load h s) = Some es)
    by (rewrite Hes; apply reify_map_Some).
  destruct (diag.HasError ds) eqn:E; injection H as <- <-; [congruence|].
  split; [reflexivity|]. exists es. split.
  - unfold slices_facts.snapshot. simpl. now rewrite Er.
  - intros i x Hi. unfold assign.
    destruct (Nat.ltb_spec i (len s)) as [_|Hge]; [|lia].
    eexists. split; [reflexivity|].
    unfold slices_facts.snapshot. simpl.
    rewrite (@load_assign _ h s i (Some x) Hin Hi).
    now rewrite (@reify_setNth _ x i es Er).
Qed.

End Construction.

Section Capacity.
Variable A : Type.
Variable zeroValue : A.

Lemma load_full_length (h : store A) (s : slice) :
  offset s + len s <= List.length (arrayAt h (array s)) ->
  List.length (load h s) = len s.
Proof.
  intros H. unfold load. rewrite length_firstn, length_skipn. lia.
Qed.

(** X18.  The slice [Elements] returns starts a fresh array, has as many
    elements as the source shows and no capacity beyond them; so appending
    to it never writes into the array it was given but moves the elements,
    with the new ones, to yet another fresh array. *)
Theorem Elements_is_full
    (h h1 : store A) (l : ListValueRef) (r : slice) :
  inStore h (elements l) ->
  offset (elements l) + len (elements l)
  <= List.length (arrayAt h (array (elements l))) ->
  Elements zeroValue h l = (h1, r) ->
  array r = List.length h
  /\ offset r = 0
  /\ len r = len (elements l)
  /\ cap r = len (elements l)
  /\ forall x xs,
      append h1 r (x :: xs)
      = (h1 ++ [load h (elements l) ++ x :: xs],
         mkSlice (List.length h1) 0 (len (elements l) + S (List.length xs))
           (len (elements l) + S (List.length xs))).
Proof.
  intros Hin Hwf E.
  destruct (@slices_facts.Elements_spec _ zeroValue h l Hin) as (c & F & G).
  rewrite E in F. injection F as -> ->.
  pose proof (load_full_length h (elements l) Hwf) as Hlen.
  rewrite Hlen in *. simpl.
  repeat split.
  intros x xs. unfold append. simpl.
  destruct (Nat.leb_spec (len (elements l) + S (List.length xs)) (len (elements l)))
    as [Hle|_]; [lia|].
  assert (Hload : load (h ++ [c]) (mkSlice (List.length h) 0 (len (elements l))
                                     (len (elements l)))
                  = load h (elements l)).
  { unfold load. simpl. now rewrite slices_facts.arrayAt_app_new. }
  rewrite Hload, (length_app (load h (elements l))), Hlen. reflexivity.
Qed.

End Capacity.

End store_more.

(** ** The further properties on concrete values *)
Module more_examples.
Import basetypes testtypes.

(** A list declared of dynamic elements that holds a string and a number. *)
Definition mixedDynamic : ListVal Base :=
  mkListValue
    [dynamicString "x"; VOther (DynamicValue known (Some (NumberValue known 1)))]
    (Some attr.TDynamic) known.

(** Diagnostics by their summary, and two defaults that report the same
    error and plan different lists. *)
Definition errorAt (summary : string) (p : nat) : diag.Diagnostic :=
  diag.NewErrorDiagnostic summary (itoa p).

Definition failingDefault (_ : unit) (_ : schema.ListRequest nat)
    : schema.ListResponse Base :=
  schema.mkListResponse [errorAt "default failed" 0] nullStrings.

Definition failingDefault' (_ : unit) (_ : schema.ListRequest nat)
    : schema.ListResponse Base :=
  schema.mkListResponse [errorAt "default failed" 0] (zero Base).

Definition computedStrings : schema.ListAttribute unit unit unit :=
  schema.mkListAttribute (Some StringType) None false false true false
    "" "" "" [] [] (Some tt).

Lemma Base_eqb_trans :
  forall a b c, Base_eqb a b = true -> Base_eqb b c = true -> Base_eqb a c = true.
Proof.
  fix IH 1.
  intros [st s|st n|st x|st x f ds] [st' s'|st' n'|st' x'|st' x' f' ds']
         [st'' s''|st'' n''|st'' x''|st'' x'' f'' ds''];
    simpl; try discriminate; intros H1 H2;
    apply andb_true_iff in H1 as [E1 H1];
    apply andb_true_iff in H2 as [E2 H2];
    apply N.eqb_eq in E1; apply N.eqb_eq in E2; subst st' st'';
    rewrite N.eqb_refl; simpl;
    destruct (N.eqb st attr.ValueStateKnown); simpl in *; try reflexivity.
  - apply String.eqb_eq in H1, H2. subst. apply String.eqb_refl.
  - apply N.eqb_eq in H1, H2. subst. apply N.eqb_refl.
  - destruct x as [u|], x' as [u'|], x'' as [u''|]; try discriminate; eauto.
  - destruct x as [u|], x' as [u'|], x'' as [u''|]; try discriminate; eauto.
Qed.

Lemma Base_Equal_trans :
  forall a b c,
    other_Equal collaborators a (VOther b) = true ->
    other_Equal collaborators b (VOther c) = true ->
    other_Equal collaborators a (VOther c) = true.
Proof. exact Base_eqb_trans. Qed.

Lemma NewListValue_well_typed_witness :
  Forall (fun e => attr.Type_Equal StringType (Some (Value_Type collaborators e)) = true)
    [knownString "a"; knownString "b"]
  /\ NewListValue collaborators (Some StringType)
       [Some (knownString "a"); Some (knownString "b")]
     = Ret (stringsAB, []).
Proof.
  assert (H : Forall (fun e => attr.Type_Equal StringType
                                 (Some (Value_Type collaborators e)) = true)
                [knownString "a"; knownString "b"]).
  { repeat constructor. }
  split; [exact H|].
  exact (@construction_more.NewListValue_well_typed _ collaborators StringType _ H).
Defined.

Lemma NewListValue_outcomes_witness :
  NewListValue collaborators (Some StringType) [Some (knownString "a")]
  = Ret (mkListValue [knownString "a"] (Some StringType) known, [])
  /\ exists es,
      [Some (knownString "a")] = map Some es
      /\ ListValue_Type (mkListValue [knownString "a"] (Some StringType) known)
         = attr.TList (Some StringType).
Proof.
  split; [reflexivity|].
  destruct (@construction_more.NewListValue_outcomes _ collaborators
              (Some StringType) [Some (knownString "a")] _ _ eq_refl)
    as (es & Hes & _ & _ & Hty).
  exists es. split; assumption.
Defined.

Lemma ToTerraformValue_wire_type_witness :
  (elementType mixedDynamic = Some attr.TDynamic
   /\ ListValue_ToTerraformValue collaborators mixedDynamic
      = Ret (tftypes.NewValue (tftypes.List_ tftypes.DynamicPseudoType)
               tftypes.UnknownValue,
             Some "lists must only contain one type of element"))
  /\ tftypes.Type_of
       (tftypes.NewValue (tftypes.List_ tftypes.DynamicPseudoType) tftypes.UnknownValue)
     = tftypes.List_ tftypes.DynamicPseudoType.
Proof.
  split; [split; reflexivity|].
  exact (proj1 (@wire_more.ToTerraformValue_wire_type _ collaborators mixedDynamic
                  attr.TDynamic _ _ eq_refl eq_refl)).
Defined.

Lemma ToTerraformValue_static_elements_witness :
  (elementType stringsAB = Some StringType
   /\ attr.isTypeWithDynamicValue (Some StringType) = false
   /\ state stringsAB = attr.ValueStateKnown
   /\ wire_facts.returns collaborators (elements stringsAB)
        [(tftypes.NewValue tftypes.String_ (tftypes.Str "a"), None);
         (tftypes.NewValue tftypes.String_ (tftypes.Str "b"), None)])
  /\ ListValue_ToTerraformValue collaborators stringsAB
     = Ret (tftypes.NewValue (tftypes.List_ tftypes.String_)
              (tftypes.Values
                 [tftypes.NewValue tftypes.String_ (tftypes.Str "a");
                  tftypes.NewValue tftypes.String_ (tftypes.Str "b")]),
            None).
Proof.
  assert (H : wire_facts.returns collaborators (elements stringsAB)
                [(tftypes.NewValue tftypes.String_ (tftypes.Str "a"), None);
                 (tftypes.NewValue tftypes.String_ (tftypes.Str "b"), None)]).
  { repeat constructor. }
  split; [repeat split; exact H|].
  exact (proj1 (@wire_more.ToTerraformValue_static_elements _ collaborators
                  stringsAB StringType _ eq_refl eq_refl eq_refl H)).
Defined.

Lemma ElementsAs_conversion_error_witness :
  ListValue_ToTerraformValue collaborators mixedDynamic
  = Ret (tftypes.NewValue (tftypes.List_ tftypes.DynamicPseudoType)
           tftypes.UnknownValue,
         Some "lists must only contain one type of element")
  /\ ElementsAs collaborators reportOptions mixedDynamic true
     = ElementsAs collaborators (fun _ _ _ => []) mixedDynamic false.
Proof.
  split; [reflexivity|].
  exact (proj2 (@wire_more.ElementsAs_conversion_error _ collaborators
                  reportOptions (fun _ _ _ => []) mixedDynamic true false
                  _ _ eq_refl)).
Defined.

Lemma ListValue_Equal_trans_witness :
  (ListValue_Equal collaborators stringsAB (VList stringsAB) = Ret true)
  /\ ListValue_Equal collaborators stringsAB (VList stringsAB) = Ret true.
Proof.
  split; [reflexivity|].
  exact (@equality_more.ListValue_Equal_trans _ collaborators
           Base_Equal_trans examples.Base_Equal_list
           stringsAB stringsAB stringsAB eq_refl eq_refl).
Defined.

Lemma ListValue_Equal_same_type_witness :
  ListValue_Equal collaborators stringsAB (VList stringsAB) = Ret true
  /\ attr.Type_Equal (ListValue_Type stringsAB)
       (Some (Value_Type collaborators (VList stringsAB))) = true.
Proof.
  split; [reflexivity|].
  exact (proj1 (@equality_more.ListValue_Equal_same_type _ collaborators
                  stringsAB (VList stringsAB) eq_refl)).
Defined.

Lemma ValidateImplementation_default_error_witness :
  (schema.Default_ computedStrings = Some tt
   /\ diag.HasError
        (schema.response_Diagnostics (failingDefault tt (schema.mkListRequest 0)))
      = true)
  /\ schema_more.validate (errorAt "dynamic") (errorAt "missing")
       (errorAt "not computed") (fun p _ _ => errorAt "mismatch" p)
       failingDefault computedStrings 0 []
     = schema_more.validate (errorAt "dynamic") (errorAt "missing")
         (errorAt "not computed") (fun p _ _ => errorAt "mismatch" p)
         failingDefault' computedStrings 0 [].
Proof.
  split; [split; reflexivity|].
  exact (@schema_more.ValidateImplementation_default_error nat Base unit unit unit
           (errorAt "dynamic") (errorAt "missing") (errorAt "not computed")
           (fun p _ _ => errorAt "mismatch" p)
           failingDefault failingDefault' computedStrings 0 [] tt
           eq_refl eq_refl eq_refl).
Defined.

Lemma NewListValue_keeps_the_slice_witness :
  (store_more.NewListValueRef collaborators store0 (Some StringType)
     (slices.mkSlice 1 0 2 2) = Ret (listRef, [])
   /\ slices.inStore store0 (slices.mkSlice 1 0 2 2))
  /\ slices.elements listRef = slices.mkSlice 1 0 2 2.
Proof.
  assert (Hin : slices.inStore store0 (slices.mkSlice 1 0 2 2)).
  { unfold slices.inStore. simpl. lia. }
  split; [split; [reflexivity | exact Hin]|].
  exact (proj1 (@store_more.NewListValue_keeps_the_slice _ collaborators store0
                  (Some StringType) (slices.mkSlice 1 0 2 2) listRef []
                  eq_refl eq_refl Hin)).
Defined.

Lemma Elements_is_full_witness :
  (slices.inStore store0 (slices.elements listRef)
   /\ slices.offset (slices.elements listRef) + slices.len (slices.elements listRef)
      <= List.length (slices.arrayAt store0 (slices.array (slices.elements listRef))))
  /\ slices.cap (snd (slices.Elements None store0 listRef)) = 2.
Proof.
  assert (Hin : slices.inStore store0 (slices.elements listRef)).
  { unfold slices.inStore. simpl. lia. }
  assert (Hwf : slices.offset (slices.elements listRef)
                + slices.len (slices.elements listRef)
                <= List.length (slices.arrayAt store0
                                  (slices.array (slices.elements listRef)))).
  { simpl. lia. }
  split; [split; assumption|].
  destruct (@store_more.Elements_is_full _ None store0 _ listRef _ Hin Hwf
              (surjective_pairing (slices.Elements None store0 listRef)))
    as (_ & _ & _ & Hcap & _).
  exact Hcap.
Defined.

End more_examples.
